(** * NCCL collective thunks: a shallow embedding of
      xla/service/gpu/nccl_collective_thunk.cc

    The development follows the source file top to bottom.  Pure helpers
    become functions; code that touches process-wide or per-instance state
    is written in explicit state-passing style over small records; the
    collaborators that live outside the file (the NCCL API object, the
    stream executor, the clique registry, the device assignment) are
    interfaces, given as type classes or as records of methods, and every
    theorem quantifies over all of their implementations. *)

From Stdlib Require Import ZArith Lia.
From stdpp Require Import base option list gmap strings.

Set Default Proof Using "Type".

(** ** absl::Status and absl::StatusOr *)

Inductive StatusCode : Type :=
  | kCancelled | kUnknown | kInvalidArgument | kDeadlineExceeded | kNotFound
  | kAlreadyExists | kPermissionDenied | kResourceExhausted
  | kFailedPrecondition | kAborted | kOutOfRange | kUnimplemented | kInternal
  | kUnavailable | kDataLoss | kUnauthenticated.

(** A [StatusOr A] holds a value or a non-OK status (code and message). *)
Inductive StatusOr (A : Type) : Type :=
  | Value (a : A)
  | Failure (code : StatusCode) (message : string).
Arguments Value {A} a.
Arguments Failure {A} code message.

(** [absl::Status] is the case without a payload. *)
Abbreviation Status := (StatusOr unit).
Abbreviation OkStatus := (Value tt).

(** A function guarded by [CHECK] either returns or aborts the process with
    the streamed message. *)
Inductive Checked (A : Type) : Type :=
  | Returned (a : A)
  | CheckFailed (message : string).
Arguments Returned {A} a.
Arguments CheckFailed {A} message.

(** ** xla::PrimitiveType

    The enumeration is declared in xla_data.proto.  The switch of
    [IsTypeSupportedByNccl] names seventeen of its enumerators; every other
    one (PRIMITIVE_TYPE_INVALID, S4, U4, the remaining F8 formats, TUPLE,
    OPAQUE_TYPE, TOKEN, ...) is [OtherPrimitiveType] with its numeric tag. *)
Inductive PrimitiveType : Type :=
  | PRED | S8 | S16 | S32 | S64 | U8 | U16 | U32 | U64
  | F16 | F32 | F64 | BF16 | C64 | C128 | F8E5M2 | F8E4M3FN
  | OtherPrimitiveType (tag : Z).

(** ** CollectiveOpGroupMode and the collective configuration *)

Inductive CollectiveOpGroupMode : Type :=
  | kCrossReplica
  | kCrossPartition
  | kCrossReplicaAndPartition
  | kFlattenedID.

(** A [ReplicaGroup] message is its repeated field [replica_ids]. *)
Definition ReplicaGroup : Type := list Z.

Definition replica_ids_size (group : ReplicaGroup) : nat := length group.

(** [RendezvousKey::CollectiveOpKind] *)
Module RendezvousKey.
Inductive CollectiveOpKind : Type := kCrossModule | kCrossReplica.
End RendezvousKey.

Record NcclCollectiveConfig : Type := {
  operand_count : Z;
  operand_element_type : list PrimitiveType;
  replica_groups : list ReplicaGroup;
  collective_op_kind : RendezvousKey.CollectiveOpKind;
  op_id : Z;
  group_mode : CollectiveOpGroupMode
}.

Module NcclCollectiveConfig.

(** [replica_groups.empty()] *)
Definition empty {A} (l : list A) : bool :=
  match l with [] => true | _ :: _ => false end.

(** [absl::c_all_of] *)
Definition c_all_of {A} (l : list A) (p : A -> bool) : bool := forallb p l.

(** NcclCollectiveConfig::IsDegenerate.  The [default:] arm of the switch
    is unreachable for the four enumerators of the mode. *)
Definition IsDegenerate (cfg : NcclCollectiveConfig)
    (replica_count partition_count : Z) : Checked bool :=
  let groups_empty := empty (replica_groups cfg) in
  let all_groups_singleton :=
    negb groups_empty &&
    c_all_of (replica_groups cfg)
             (fun group => Nat.eqb (replica_ids_size group) 1) in
  match group_mode cfg with
  | kCrossReplica =>
      Returned (all_groups_singleton ||
                (groups_empty && (replica_count =? 1)%Z))
  | kCrossPartition =>
      Returned (all_groups_singleton ||
                (groups_empty && (partition_count =? 1)%Z))
  | kCrossReplicaAndPartition =>
      Returned ((all_groups_singleton && (partition_count =? 1)%Z) ||
                (groups_empty && (replica_count =? 1)%Z
                              && (partition_count =? 1)%Z))
  | kFlattenedID =>
      if negb groups_empty then Returned all_groups_singleton
      else CheckFailed
        "replica groups cannot be empty if use_global_device_ids = true"
  end.

(** The table of the design document, in its own words.  "All groups
    singleton" speaks of the groups that are listed: there is at least one
    and each has exactly one id.  The rows give the case of no listed
    group separately. *)
Definition all_groups_singleton (groups : list ReplicaGroup) : Prop :=
  groups <> [] /\ forall g, g ∈ groups -> length g = 1.

Definition degenerate_table (mode : CollectiveOpGroupMode)
    (groups : list ReplicaGroup) (replicaCount partitionCount : Z) : Prop :=
  match mode with
  | kCrossReplica =>
      all_groups_singleton groups \/ (groups = [] /\ replicaCount = 1%Z)
  | kCrossPartition =>
      all_groups_singleton groups \/ (groups = [] /\ partitionCount = 1%Z)
  | kCrossReplicaAndPartition =>
      (all_groups_singleton groups /\ partitionCount = 1%Z) \/
      (groups = [] /\ replicaCount = 1%Z /\ partitionCount = 1%Z)
  | kFlattenedID => all_groups_singleton groups
  end.

(** The configuration of a collective on one F32 operand, with the given
    mode and groups. *)
Definition config_of (mode : CollectiveOpGroupMode)
    (groups : list ReplicaGroup) : NcclCollectiveConfig :=
  {| operand_count := 1; operand_element_type := [F32];
     replica_groups := groups;
     collective_op_kind := RendezvousKey.kCrossReplica;
     op_id := 0; group_mode := mode |}.

End NcclCollectiveConfig.

(** ** Operand validation *)

(** [Thunk::Kind] and [IsReductionCollective] are declared in thunk.h. *)
Class ThunkKinds : Type := {
  Kind : Type;
  IsReductionCollective : Kind -> bool
}.

(** [xla::Shape] with what this file asks of it: its element type,
    [LayoutUtil::IsDenseArray], and the two printers used in messages. *)
Class Shapes : Type := {
  Shape : Type;
  element_type : Shape -> PrimitiveType;
  IsDenseArray : Shape -> bool;
  ToString : Shape -> string;
  LowercasePrimitiveTypeName : PrimitiveType -> string
}.

Definition IsTypeSupportedByNccl `{ThunkKinds}
    (element_type : PrimitiveType) (reduction_op : Kind) : bool :=
  match element_type with
  | S8 | PRED | U8 | S32 | U32 | S64 | U64
  | F16 | F32 | F64 | BF16 | C64 | C128 => true
  | S16 | U16 | F8E5M2 | F8E4M3FN => negb (IsReductionCollective reduction_op)
  | OtherPrimitiveType _ => false
  end.

Definition IsValidOperand `{ThunkKinds} `{Shapes}
    (shape : Shape) (reduction_op : Kind) : Status :=
  if negb (IsDenseArray shape) then
    Failure kUnimplemented
      ("input is not a dense array: " +:+ ToString shape)
  else if negb (IsTypeSupportedByNccl (element_type shape) reduction_op) then
    Failure kUnimplemented
      ("element type " +:+ LowercasePrimitiveTypeName (element_type shape)
       +:+ " not suppored by NCCL")
  else OkStatus.

(** The element types the transport never reduces: moved, not computed. *)
Definition narrow_type (t : PrimitiveType) : Prop :=
  t = S16 \/ t = U16 \/ t = F8E5M2 \/ t = F8E4M3FN.

(** The types [IsTypeSupportedByNccl] lets through for every kind. *)
Definition always_supported (t : PrimitiveType) : Prop :=
  t ∈ [S8; PRED; U8; S32; U32; S64; U64; F16; F32; F64; BF16; C64; C128].

Definition in_supported_list (t : PrimitiveType) : Prop :=
  always_supported t \/ narrow_type t.

(** Support by the transport in the words of the design document: the
    element type is on the supported list, and a narrow type is
    unsupported for a reduction.  It is stated on the types themselves,
    to be compared with [IsTypeSupportedByNccl]. *)
Definition supported_by_transport `{ThunkKinds} (t : PrimitiveType)
    (reduction_op : Kind) : Prop :=
  in_supported_list t /\
  (narrow_type t -> IsReductionCollective reduction_op = false).

(** ** Device buffers *)

(** Modelled from the spec: [se::DeviceMemoryBase] is declared by the
    stream executor.  The design document has a device address for each
    side of a buffer pair; it is carried here with the byte size of the
    region. *)
Record DeviceMemoryBase : Type := {
  opaque : N;
  size : N
}.

(** [NcclCollectiveThunk::Buffer], over the type of
    [BufferAllocation::Slice]. *)
Record Buffer (Slice : Type) : Type := {
  element_count : Z;
  source_buffer : Slice;
  destination_buffer : Slice;
  source_memory_space : Z;
  destination_memory_space : Z
}.
Arguments element_count {Slice} _.
Arguments source_buffer {Slice} _.
Arguments destination_buffer {Slice} _.
Arguments source_memory_space {Slice} _.
Arguments destination_memory_space {Slice} _.

Module DeviceBufferPair.
Record t : Type := mk {
  element_type : PrimitiveType;
  element_count : Z;
  source_buffer : DeviceMemoryBase;
  destination_buffer : DeviceMemoryBase;
  source_memory_space : Z;
  destination_memory_space : Z
}.
End DeviceBufferPair.
Abbreviation DeviceBufferPair := DeviceBufferPair.t.

(** [BufferAllocations], by its one method used here. *)
Record BufferAllocations (Slice : Type) : Type := {
  GetDeviceAddress : Slice -> DeviceMemoryBase
}.
Arguments GetDeviceAddress {Slice} _ _.

(** The body of the loop of [ConvertToDeviceBuffers] at index [i]; [None]
    is an access past the end of either vector. *)
Definition device_buffer_at {Slice}
    (buffer_allocations : BufferAllocations Slice)
    (buffers : list (Buffer Slice)) (element_types : list PrimitiveType)
    (i : nat) : option DeviceBufferPair :=
  et ← element_types !! i;
  b ← buffers !! i;
  Some (DeviceBufferPair.mk et (element_count b)
          (GetDeviceAddress buffer_allocations (source_buffer b))
          (GetDeviceAddress buffer_allocations (destination_buffer b))
          (source_memory_space b) (destination_memory_space b)).

(** [for (int i = 0; i < buffers.size(); ++i) device_buffers.emplace_back(..)],
    started at [i] with [n] iterations left. *)
Fixpoint convert_loop {Slice} (buffer_allocations : BufferAllocations Slice)
    (buffers : list (Buffer Slice)) (element_types : list PrimitiveType)
    (i n : nat) (device_buffers : list DeviceBufferPair)
    : option (list DeviceBufferPair) :=
  match n with
  | O => Some device_buffers
  | S n' =>
      p ← device_buffer_at buffer_allocations buffers element_types i;
      convert_loop buffer_allocations buffers element_types (S i) n'
                   (device_buffers ++ [p])
  end.

(** ConvertToDeviceBuffers (the overload on [BufferAllocations]).  The
    outer [option] is [None] when an element access is out of range. *)
Definition ConvertToDeviceBuffers {Slice}
    (buffer_allocations : BufferAllocations Slice)
    (buffers : list (Buffer Slice)) (element_types : list PrimitiveType)
    : option (StatusOr (list DeviceBufferPair)) :=
  if negb (length buffers =? length element_types)%nat then
    Some (Failure kFailedPrecondition "Mismatch in operand buffer counts.")
  else
    Value <$> convert_loop buffer_allocations buffers element_types
                           0 (length buffers) [].

(** [GetNumLocalParticipants]; a null [local_devices] is [None]. *)
Definition c_linear_search (l : list Z) (x : Z) : bool :=
  existsb (Z.eqb x) l.

Definition c_count_if {A} (l : list A) (p : A -> bool) : nat :=
  length (filter (fun a => p a = true) l).

Definition GetNumLocalParticipants (participants : list Z)
    (local_devices : option (list Z)) : nat :=
  match local_devices with
  | None => length participants
  | Some local => c_count_if participants (c_linear_search local)
  end.

(** ** Acquiring the communicator *)

(** [GlobalDeviceId] wraps an [int64_t]. *)
Definition GlobalDeviceId : Type := Z.

(** Modelled from the spec: [NcclCliqueKey] and its constructor are defined
    in nccl_clique_key.cc.  The design document gives the key as the value
    (ParticipantSet, logical stream index). *)
Record NcclCliqueKey : Type := {
  devices_ : list GlobalDeviceId;
  stream_id_ : Z
}.

Module NcclCliqueKey.
(** Modelled from the spec: [NcclCliqueKey::rank] is defined in
    nccl_clique_key.cc.  The design document gives the rank as the
    zero-based position of the device within the participant set's
    ordering; a device that is not in the set has none. *)
Definition rank (key : NcclCliqueKey) (id : GlobalDeviceId) : option Z :=
  (fun hit => Z.of_nat hit.1) <$> list_find (fun d => d = id) (devices_ key).
End NcclCliqueKey.

(** [absl::c_find] as the offset of the returned iterator from [begin()];
    the offset of [end()] is the length. *)
Fixpoint c_find (c : list GlobalDeviceId) (value : GlobalDeviceId) : nat :=
  match c with
  | [] => 0
  | d :: c' => if decide (d = value) then 0 else S (c_find c' value)
  end.

(** What is asked of the clique registry, oldest first. *)
Inductive CommRequest : Type :=
  | GetCommRequest (clique_key : NcclCliqueKey) (rank : Z)
  | AcquireRequest (run_id op_id : Z) (participants : list GlobalDeviceId)
      (num_local_participants : nat) (rank : Z) (stream_id : Z)
      (enable_clique_optimization : bool).

(** The collaborators of this file in the collective runtime:
    collective_ops_utils.h ([GetParticipatingDevices]), computation_placer.h
    ([DeviceAssignment], whose [replica_count()] is the height of the
    assignment array), nccl_clique.h ([IsGlobalNcclConfig], which reads the
    NCCL_COMM_ID environment variable, [GetNcclCliqueIdCallback] and
    [AcquireNcclComm]).  [AcquireNcclComm] runs the rendezvous, so what it
    returns may depend on everything asked of the registry before. *)
Class CollectiveRuntime : Type := {
  DeviceAssignment : Type;
  replica_count : DeviceAssignment -> nat;
  GetParticipatingDevices :
    GlobalDeviceId -> DeviceAssignment -> list ReplicaGroup ->
    CollectiveOpGroupMode -> StatusOr (list GlobalDeviceId);
  IsGlobalNcclConfig : bool;
  NcclCommLock : Type;
  NcclCliqueIdCallback : Type;
  GetNcclCliqueIdCallback :
    option NcclCliqueIdCallback -> bool -> StatusOr NcclCliqueIdCallback;
  AcquireNcclComm :
    list CommRequest -> Z -> Z -> list GlobalDeviceId -> nat ->
    NcclCliqueIdCallback -> Z -> Z -> bool -> StatusOr NcclCommLock
}.

(** [Thunk::CollectiveExecuteParams].  The id map is a [std::map], read in
    key order; a null map or callback is [None]. *)
Record CollectiveExecuteParams `{CollectiveRuntime} : Type := {
  run_id : Z;
  local_device_ordinal : Z;
  global_device_id : GlobalDeviceId;
  device_assn : DeviceAssignment;
  global_device_id_map : option (list (Z * GlobalDeviceId));
  nccl_clique_id_callback : option NcclCliqueIdCallback
}.

(** [Thunk::CollectiveCliques], by its one method used here: a lookup among
    the cliques acquired for this run. *)
Record CollectiveCliques `{CollectiveRuntime} : Type := {
  GetComm : NcclCliqueKey -> Z -> StatusOr NcclCommLock
}.

Definition partial_groups_message : string :=
  "Partial replica groups are not allowed when using NCCL_COMM_ID "
  +:+ "environment configuration.".

(** [participants.size() != params.device_assn->replica_count()] *)
Definition size_differs `{CollectiveRuntime}
    (participants : list GlobalDeviceId) (assn : DeviceAssignment) : bool :=
  negb (length participants =? replica_count assn)%nat.

(** GetNcclComm.  The registry log is threaded through; the outer [option]
    is [None] where the source dereferences an empty [std::optional]. *)
Definition GetNcclComm `{CollectiveRuntime}
    (params : CollectiveExecuteParams) (collective_cliques : CollectiveCliques)
    (replica_groups : list ReplicaGroup) (group_mode : CollectiveOpGroupMode)
    (stream_id : Z) (log : list CommRequest)
    : option (StatusOr NcclCommLock * list CommRequest) :=
  let global_device_id := global_device_id params in
  match GetParticipatingDevices global_device_id (device_assn params)
                                replica_groups group_mode with
  | Failure c m => Some (Failure c m, log)
  | Value participants =>
      if IsGlobalNcclConfig && size_differs participants (device_assn params)
      then Some (Failure kInvalidArgument partial_groups_message, log)
      else
        let clique_key :=
          {| devices_ := participants; stream_id_ := stream_id |} in
        match NcclCliqueKey.rank clique_key global_device_id with
        | None => None
        | Some r =>
            Some (GetComm collective_cliques clique_key r,
                  log ++ [GetCommRequest clique_key r])
        end
  end.

(** LockNcclComm.  [TF_RET_CHECK] fails with an internal error, whose
    message the macro builds from the file, the line and the condition; the
    model keeps the condition only.  Activating the executor context leaves
    no trace in this model.  The rank is the
    offset of the iterator; a job has far fewer than 2^31 devices, and the
    narrowing of the offset to [int] is not followed. *)
Definition LockNcclComm `{CollectiveRuntime}
    (params : CollectiveExecuteParams)
    (replica_groups : list ReplicaGroup) (group_mode : CollectiveOpGroupMode)
    (op_id stream_id : Z) (enable_clique_optimization : bool)
    (log : list CommRequest) : StatusOr NcclCommLock * list CommRequest :=
  let global_device_id := global_device_id params in
  match GetParticipatingDevices global_device_id (device_assn params)
                                replica_groups group_mode with
  | Failure c m => (Failure c m, log)
  | Value participants =>
      if IsGlobalNcclConfig && size_differs participants (device_assn params)
      then (Failure kInvalidArgument partial_groups_message, log)
      else
        let it := c_find participants global_device_id in
        if negb (it <? length participants)%nat
        then (Failure kInternal "RET_CHECK failure: it != participants.end()",
              log)
        else
          let rank := Z.of_nat it in
          let local_devices :=
            match global_device_id_map params with
            | Some entries => map snd entries
            | None => []
            end in
          let num_local_participants :=
            GetNumLocalParticipants participants
              (match global_device_id_map params with
               | Some _ => Some local_devices
               | None => None
               end) in
          let is_local :=
            (length participants =? num_local_participants)%nat in
          match GetNcclCliqueIdCallback (nccl_clique_id_callback params)
                                        is_local with
          | Failure c m => (Failure c m, log)
          | Value clique_id_callback =>
              (AcquireNcclComm log (run_id params) op_id participants
                 num_local_participants clique_id_callback rank stream_id
                 enable_clique_optimization,
               log ++ [AcquireRequest (run_id params) op_id participants
                         num_local_participants rank stream_id
                         enable_clique_optimization])
          end
  end.

(** ** Buffer registration *)

Definition kCollectiveMemorySpaceColor : Z := 1.

(** [NcclApi::NcclCommHandle] and [NcclApi::NcclRegisteredBufferHandle] are
    opaque pointers, carried as their addresses. *)
Definition NcclCommHandle : Type := N.
Definition NcclRegisteredBufferHandle : Type := N.

(** One call of the registration primitive. *)
Definition RegisterCall : Type := (NcclCommHandle * DeviceMemoryBase)%type.

(** The [NcclApi] interface, by its one method used here.  The library
    decides what a call returns; it is given the calls made before, so two
    calls with the same arguments may return differently. *)
Class NcclApi : Type := {
  RegisterBuffer :
    list RegisterCall -> NcclCommHandle -> DeviceMemoryBase ->
    StatusOr NcclRegisteredBufferHandle
}.

(** The function-local static [all_registered] of [MaybeRegisterBuffers],
    together with the record of the calls made to the primitive. *)
Record RegisteredBuffers : Type := {
  per_device_comms : gmap Z (gset NcclCommHandle);
  handles : list NcclRegisteredBufferHandle;
  register_calls : list RegisterCall
}.

(** The state of a fresh process. *)
Definition no_registered_buffers : RegisteredBuffers :=
  {| per_device_comms := ∅; handles := []; register_calls := [] |}.

(** [per_device_comms[device_ordinal]]: [operator[]] default-constructs the
    entry when the key is absent. *)
Definition index_per_device_comms (device_ordinal : Z)
    (all_registered : RegisteredBuffers) : RegisteredBuffers :=
  match per_device_comms all_registered !! device_ordinal with
  | Some _ => all_registered
  | None =>
      {| per_device_comms :=
           <[device_ordinal := ∅]> (per_device_comms all_registered);
         handles := handles all_registered;
         register_calls := register_calls all_registered |}
  end.

(** [per_device_comms[device_ordinal].contains(comm)] *)
Definition contains_comm (device_ordinal : Z) (comm : NcclCommHandle)
    (all_registered : RegisteredBuffers) : bool :=
  bool_decide (comm ∈ per_device_comms all_registered !!! device_ordinal).

(** [TF_ASSIGN_OR_RETURN(handle, nccl_api->RegisterBuffer(comm, buffer));
     handles.push_back(handle);
     per_device_comms[device_ordinal].insert(comm);]
    A failed call is recorded and leaves the table as it is. *)
Definition register_buffer `{NcclApi} (device_ordinal : Z)
    (comm : NcclCommHandle) (buffer : DeviceMemoryBase)
    (all_registered : RegisteredBuffers) : Status * RegisteredBuffers :=
  let calls := register_calls all_registered in
  match RegisterBuffer calls comm buffer with
  | Failure c m =>
      (Failure c m,
       {| per_device_comms := per_device_comms all_registered;
          handles := handles all_registered;
          register_calls := calls ++ [(comm, buffer)] |})
  | Value handle =>
      (OkStatus,
       {| per_device_comms :=
            <[device_ordinal :=
                {[comm]}
                ∪ (per_device_comms all_registered !!! device_ordinal)]>
              (per_device_comms all_registered);
          handles := handles all_registered ++ [handle];
          register_calls := calls ++ [(comm, buffer)] |})
  end.

(** The body of the loop of [MaybeRegisterBuffers] for one buffer pair. *)
Definition register_pair `{NcclApi} (device_ordinal : Z)
    (comm : NcclCommHandle) (buffer : DeviceBufferPair)
    (all_registered : RegisteredBuffers) : Status * RegisteredBuffers :=
  let all_registered := index_per_device_comms device_ordinal all_registered in
  if negb (contains_comm device_ordinal comm all_registered) then
    let after_source :=
      if (DeviceBufferPair.source_memory_space buffer
            =? kCollectiveMemorySpaceColor)%Z
      then register_buffer device_ordinal comm
             (DeviceBufferPair.source_buffer buffer) all_registered
      else (OkStatus, all_registered) in
    match after_source with
    | (Failure c m, all_registered) => (Failure c m, all_registered)
    | (Value _, all_registered) =>
        if (DeviceBufferPair.destination_memory_space buffer
              =? kCollectiveMemorySpaceColor)%Z
        then register_buffer device_ordinal comm
               (DeviceBufferPair.destination_buffer buffer) all_registered
        else (OkStatus, all_registered)
    end
  else (OkStatus, all_registered).

(** MaybeRegisterBuffers: the loop over the buffers, left at the first
    failed registration. *)
Fixpoint MaybeRegisterBuffers `{NcclApi} (device_ordinal : Z)
    (buffers : list DeviceBufferPair) (comm : NcclCommHandle)
    (all_registered : RegisteredBuffers) : Status * RegisteredBuffers :=
  match buffers with
  | [] => (OkStatus, all_registered)
  | buffer :: rest =>
      match register_pair device_ordinal comm buffer all_registered with
      | (Failure c m, all_registered) => (Failure c m, all_registered)
      | (Value _, all_registered) =>
          MaybeRegisterBuffers device_ordinal rest comm all_registered
      end
  end.

(** A communicator is registered for a device when the table lists it. *)
Definition registered (device_ordinal : Z) (comm : NcclCommHandle)
    (all_registered : RegisteredBuffers) : Prop :=
  comm ∈ per_device_comms all_registered !!! device_ordinal.


(** The registrations that succeeded between two states. *)
Definition registrations_between (before after : RegisteredBuffers) : nat :=
  length (handles after) - length (handles before).

(** One state extends another: the comms of every device only grow, no
    device leaves the table, and the handles and the calls are extended at
    the end. *)
Definition extends (s s' : RegisteredBuffers) : Prop :=
  (forall d comm, registered d comm s -> registered d comm s') /\
  (exists new, handles s' = handles s ++ new) /\
  (exists new, register_calls s' = register_calls s ++ new) /\
  dom (per_device_comms s) ⊆ dom (per_device_comms s').

(** ** Streams, events and the completion record *)

(** [se::StreamExecutor*], carried as its address. *)
Definition StreamExecutor : Type := N.

(** [se::Stream]: its own identity and the executor it belongs to. *)
Record Stream : Type := {
  stream_handle : N;
  parent : StreamExecutor
}.

(** [se::Event]: the executor it was constructed for and a serial number
    that tells two constructed events apart. *)
Record Event : Type := {
  event_executor : StreamExecutor;
  event_serial : nat
}.

(** What the host does to a stream, oldest first. *)
Inductive StreamOp : Type :=
  | ThenWaitForStream (stream other : Stream)
  | ThenWaitForEvent (stream : Stream) (event : Event)
  | ThenRecordEvent (stream : Stream) (event : Event)
  | NcclCollective (stream : Stream)
  | BlockHostUntilDone (stream : Stream).

(** The device layer decides whether [se::Event::Init] succeeds. *)
Class EventDriver : Type := {
  EventInit : Event -> bool
}.

(** The state the thunks of one collective operation act on: the
    [AsyncEvents] object shared by the start thunk and its done thunk (the
    map [events_]), the number of [se::Event] objects constructed so far,
    the stream operations issued, and what was asked of the clique
    registry. *)
Record World : Type := {
  events_ : gmap StreamExecutor Event;
  events_constructed : nat;
  stream_log : list StreamOp;
  comm_log : list CommRequest
}.

Definition set_events (events : gmap StreamExecutor Event) (w : World)
    : World :=
  {| events_ := events; events_constructed := events_constructed w;
     stream_log := stream_log w; comm_log := comm_log w |}.

Definition construct_event (w : World) : World :=
  {| events_ := events_ w; events_constructed := S (events_constructed w);
     stream_log := stream_log w; comm_log := comm_log w |}.

Definition issue (op : StreamOp) (w : World) : World :=
  {| events_ := events_ w; events_constructed := events_constructed w;
     stream_log := stream_log w ++ [op]; comm_log := comm_log w |}.

Definition set_comm_log (log : list CommRequest) (w : World) : World :=
  {| events_ := events_ w; events_constructed := events_constructed w;
     stream_log := stream_log w; comm_log := log |}.

(** A world in which [AsyncEvents()] has just been constructed. *)
Definition fresh (w : World) : Prop := events_ w = ∅.

(** [flat_hash_map::try_emplace]: inserts only when the key is absent. *)
Definition try_emplace (executor : StreamExecutor) (event : Event)
    (events : gmap StreamExecutor Event) : gmap StreamExecutor Event :=
  match events !! executor with
  | Some _ => events
  | None => <[executor := event]> events
  end.

Module AsyncEvents.

(** NcclCollectiveThunk::AsyncEvents::Initialize *)
Definition Initialize `{EventDriver} (executor : StreamExecutor) (w : World)
    : Status * World :=
  if bool_decide (is_Some (events_ w !! executor)) then (OkStatus, w)
  else
    let event :=
      {| event_executor := executor; event_serial := events_constructed w |} in
    let w := construct_event w in
    if negb (EventInit event) then
      (Failure kInternal
         "Failed to initialize collective operation async completion event",
       w)
    else (OkStatus, set_events (try_emplace executor event (events_ w)) w).

(** NcclCollectiveThunk::AsyncEvents::GetEvent *)
Definition GetEvent (executor : StreamExecutor) (w : World)
    : StatusOr Event * World :=
  match events_ w !! executor with
  | None =>
      (Failure kInternal
         "Collective operation async completion event not initialized", w)
  | Some event => (Value event, w)
  end.

(** A call on the [AsyncEvents] object, and a call with what it returned. *)
Inductive Call : Type :=
  | CallInitialize (executor : StreamExecutor)
  | CallGetEvent (executor : StreamExecutor).

Inductive Returned : Type :=
  | InitializeReturned (executor : StreamExecutor) (status : Status)
  | GetEventReturned (executor : StreamExecutor) (result : StatusOr Event).

Definition call `{EventDriver} (c : Call) (w : World) : Returned * World :=
  match c with
  | CallInitialize executor =>
      let '(status, w) := Initialize executor w in
      (InitializeReturned executor status, w)
  | CallGetEvent executor =>
      let '(result, w) := GetEvent executor w in
      (GetEventReturned executor result, w)
  end.

(** A sequence of calls, with the history of what they returned. *)
Fixpoint calls `{EventDriver} (cs : list Call) (w : World)
    : list Returned * World :=
  match cs with
  | [] => ([], w)
  | c :: cs' =>
      let '(r, w) := call c w in
      let '(rs, w) := calls cs' w in
      (r :: rs, w)
  end.

(** [Initialize] has succeeded for the executor somewhere in the history. *)
Definition initialized_in (executor : StreamExecutor)
    (history : list Returned) : Prop :=
  InitializeReturned executor OkStatus ∈ history.

End AsyncEvents.

(** ** The thunks *)

(** [Thunk::ExecuteParams]: the main compute stream, the async
    communication streams (one for each [AsyncStreamKind], read by index),
    the collective parameters and the cliques acquired for the run. *)
Record ExecuteParams `{CollectiveRuntime} : Type := {
  stream : Stream;
  async_comms_streams : Z -> Stream;
  collective_params : CollectiveExecuteParams;
  collective_cliques : CollectiveCliques
}.

(** What the device layer reports during one execution: the status of the
    collective launched by the subclass, whether a launch that failed had
    already put its primitive on the stream, and the status of the host
    synchronisation, should it be asked for. *)
Record DeviceReport : Type := {
  run_nccl_collective : Status;
  enqueued_on_failure : bool;
  block_host_until_done : Status
}.

(** An [NcclCollectiveThunk] instance.  [async_events_] tells whether the
    pointer is non-null; the [AsyncEvents] object itself is in the world,
    where the done thunk reaches it too. *)
Record NcclCollectiveThunk : Type := {
  config : NcclCollectiveConfig;
  async_events_ : bool;
  GetStreamId : Z;
  GetAsyncStreamKind : Z;
  first_call_to_execute_ : bool
}.

Definition set_first_call_to_execute (b : bool) (thunk : NcclCollectiveThunk)
    : NcclCollectiveThunk :=
  {| config := config thunk; async_events_ := async_events_ thunk;
     GetStreamId := GetStreamId thunk;
     GetAsyncStreamKind := GetAsyncStreamKind thunk;
     first_call_to_execute_ := b |}.

Module NcclCollectiveThunk.

(** Modelled from the spec: the member [first_call_to_execute_] and its
    initializer are declared in nccl_collective_thunk.h.  The design
    document has the host synchronisation on the very first execution of an
    instance, so the member starts out true. *)
Definition first_call_to_execute_initially : bool := true.

(** The constructor: [async_events_(is_sync ? nullptr : new AsyncEvents())]. *)
Definition create (cfg : NcclCollectiveConfig) (is_sync : bool)
    (stream_id async_stream_kind : Z) : NcclCollectiveThunk :=
  {| config := cfg; async_events_ := negb is_sync;
     GetStreamId := stream_id; GetAsyncStreamKind := async_stream_kind;
     first_call_to_execute_ := first_call_to_execute_initially |}.

(** Modelled from the spec: [IsAsync] is defined in nccl_collective_thunk.h;
    the asynchronous variants are those that hold a completion record. *)
Definition IsAsync (thunk : NcclCollectiveThunk) : bool := async_events_ thunk.

(** Modelled from the spec: [RunNcclCollective] is pure virtual here and
    implemented by each collective.  When it returns Ok it has issued its
    primitive on the given stream, which never blocks the host.  It
    converts and validates its operands before it issues anything, so
    when it fails the primitive may or may not be on the stream; the
    report tells which. *)
Definition RunNcclCollective (device : DeviceReport) (stream : Stream)
    (w : World) : Status * World :=
  match run_nccl_collective device with
  | Value _ => (OkStatus, issue (NcclCollective stream) w)
  | Failure c m =>
      (Failure c m,
       if enqueued_on_failure device then issue (NcclCollective stream) w
       else w)
  end.

(** NcclCollectiveThunk::Initialize, on [params.executor]. *)
Definition Initialize `{EventDriver} (thunk : NcclCollectiveThunk)
    (executor : StreamExecutor) (w : World) : Status * World :=
  if async_events_ thunk then
    match AsyncEvents.Initialize executor w with
    | (Failure c m, w) => (Failure c m, w)
    | (Value _, w) => (OkStatus, w)
    end
  else (OkStatus, w).

(** The stream the collective is issued on. *)
Definition issuing_stream `{CollectiveRuntime} (thunk : NcclCollectiveThunk)
    (params : ExecuteParams) : Stream :=
  if IsAsync thunk then async_comms_streams params (GetAsyncStreamKind thunk)
  else stream params.

(** NcclCollectiveThunk::ExecuteOnStream.  It returns the status, the
    instance as the call leaves it, and the world; [None] where
    [GetNcclComm] is undefined. *)
Definition ExecuteOnStream `{CollectiveRuntime} (thunk : NcclCollectiveThunk)
    (params : ExecuteParams) (device : DeviceReport) (w : World)
    : option (Status * NcclCollectiveThunk * World) :=
  let stream_id := GetStreamId thunk in
  match GetNcclComm (collective_params params) (collective_cliques params)
                    (replica_groups (config thunk))
                    (group_mode (config thunk)) stream_id (comm_log w) with
  | None => None
  | Some (Failure c m, log) => Some (Failure c m, thunk, set_comm_log log w)
  | Some (Value comm, log) =>
      let w := set_comm_log log w in
      let executor := parent (stream params) in
      let async_stream_idx := GetAsyncStreamKind thunk in
      let launched : Status * World :=
        if IsAsync thunk then
          let async_stream := async_comms_streams params async_stream_idx in
          let w := issue (ThenWaitForStream async_stream (stream params)) w in
          match RunNcclCollective device async_stream w with
          | (Failure c m, w) => (Failure c m, w)
          | (Value _, w) =>
              match AsyncEvents.GetEvent executor w with
              | (Failure c m, w) => (Failure c m, w)
              | (Value event, w) =>
                  (OkStatus, issue (ThenRecordEvent async_stream event) w)
              end
          end
        else RunNcclCollective device (stream params) w in
      match launched with
      | (Failure c m, w) => Some (Failure c m, thunk, w)
      | (Value _, w) =>
          if first_call_to_execute_ thunk then
            let stream :=
              if IsAsync thunk then async_comms_streams params async_stream_idx
              else stream params in
            let w := issue (BlockHostUntilDone stream) w in
            match block_host_until_done device with
            | Failure c m => Some (Failure c m, thunk, w)
            | Value _ =>
                Some (OkStatus, set_first_call_to_execute false thunk, w)
            end
          else Some (OkStatus, thunk, w)
      end
  end.

(** One execution as seen from outside: what it returned and the stream
    operations it issued. *)
Record Execution : Type := {
  returned : Status;
  issued : list StreamOp
}.

(** Successive executions of one instance, each with its own parameters and
    device report. *)
Fixpoint executions `{CollectiveRuntime} (thunk : NcclCollectiveThunk)
    (invocations : list (ExecuteParams * DeviceReport)) (w : World)
    : option (list Execution) :=
  match invocations with
  | [] => Some []
  | (params, device) :: rest =>
      match ExecuteOnStream thunk params device w with
      | None => None
      | Some (status, thunk', w') =>
          later ← executions thunk' rest w';
          Some ({| returned := status;
                   issued := drop (length (stream_log w)) (stream_log w') |}
                :: later)
      end
  end.

(** The execution synchronised the host with some stream. *)
Definition blocks_host (e : Execution) : Prop :=
  exists stream, BlockHostUntilDone stream ∈ issued e.

End NcclCollectiveThunk.

(** A list of stream operations without a host synchronisation. *)
Definition without_block (ops : list StreamOp) : Prop :=
  forall stream, BlockHostUntilDone stream ∉ ops.

Module NcclCollectiveDoneThunk.

(** NcclCollectiveDoneThunk::ExecuteOnStream *)
Definition ExecuteOnStream `{CollectiveRuntime} (params : ExecuteParams)
    (w : World) : Status * World :=
  let executor := parent (stream params) in
  match AsyncEvents.GetEvent executor w with
  | (Failure c m, w) => (Failure c m, w)
  | (Value event, w) =>
      (OkStatus, issue (ThenWaitForEvent (stream params) event) w)
  end.

End NcclCollectiveDoneThunk.

(** ** Concrete collaborators, for evaluating the definitions *)

Module Fixture.

(** Two kinds of thunk: a reduction and a data movement. *)
Inductive kind : Type := kNcclAllReduce | kNcclAllGather.

#[export] Instance kinds : ThunkKinds :=
  {| Kind := kind;
     IsReductionCollective :=
       fun k =>
         match k with kNcclAllReduce => true | kNcclAllGather => false end |}.

(** A shape as its element type and whether it is a dense array. *)
#[export] Instance shapes : Shapes :=
  {| Shape := PrimitiveType * bool;
     element_type := fst;
     IsDenseArray := snd;
     ToString := fun _ => "shape"%string;
     LowercasePrimitiveTypeName := fun _ => "type"%string |}.

(** An allocation table that places slice [n] at address [n]. *)
Definition allocations : BufferAllocations N :=
  {| GetDeviceAddress := fun slice => {| opaque := slice; size := 4 |} |}.

Definition buffer (count : Z) (src dst : N) (src_space dst_space : Z)
    : Buffer N :=
  {| element_count := count; source_buffer := src; destination_buffer := dst;
     source_memory_space := src_space; destination_memory_space := dst_space |}.

(** A job of [replicas] replicas with one partition, all devices in one
    group whatever the groups given; the registry hands out the rank as the
    communicator. *)
Definition runtime (global : bool) : CollectiveRuntime :=
  {| DeviceAssignment := nat;
     replica_count := fun replicas => replicas;
     GetParticipatingDevices := fun _ _ groups _ =>
       match groups with
       | [] => Failure kInvalidArgument "no group"
       | g :: _ => Value g
       end;
     IsGlobalNcclConfig := global;
     NcclCommLock := Z;
     NcclCliqueIdCallback := unit;
     GetNcclCliqueIdCallback := fun _ _ => Value tt;
     AcquireNcclComm := fun _ _ _ _ _ _ rank _ _ => Value rank |}.

(** The parameters of device [id] in a job of [replicas] replicas. *)
Definition params (global : bool) (replicas : nat) (id : GlobalDeviceId)
    : @CollectiveExecuteParams (runtime global) :=
  @Build_CollectiveExecuteParams (runtime global) 7 0 id replicas None None.

Definition cliques (global : bool) : @CollectiveCliques (runtime global) :=
  @Build_CollectiveCliques (runtime global) (fun _ r => Value r).

(** A library that registers every buffer, handing out the number of
    earlier calls as the handle. *)
#[export] Instance registering : NcclApi :=
  {| RegisterBuffer := fun calls _ _ => Value (N.of_nat (length calls)) |}.

(** A pair whose source lies in the collective memory space, another with
    both sides there, and the table after registering the first for
    device 0 and communicator 5 in a fresh process. *)
Definition source_collective : list DeviceBufferPair :=
  [DeviceBufferPair.mk F32 8 {| opaque := 10; size := 32 |}
     {| opaque := 20; size := 32 |} 1 0].

Definition both_collective : list DeviceBufferPair :=
  [DeviceBufferPair.mk F32 8 {| opaque := 30; size := 32 |}
     {| opaque := 40; size := 32 |} 1 1].

Definition after_first : RegisteredBuffers :=
  (MaybeRegisterBuffers 0 source_collective 5%N no_registered_buffers).2.

(** A device on which every event initialises. *)
#[export] Instance events_ok : EventDriver := {| EventInit := fun _ => true |}.

Definition world : World :=
  {| events_ := ∅; events_constructed := 0; stream_log := [];
     comm_log := [] |}.

(** The parameters of an execution on a stream of executor 2. *)
Definition execute_params : @ExecuteParams (runtime false) :=
  @Build_ExecuteParams (runtime false)
    {| stream_handle := 100; parent := 2%N |}
    (fun _ => {| stream_handle := 200; parent := 2%N |})
    (params false 3 1%Z) (cliques false).

(** A history that initialises executor 1 only, and the world it leaves. *)
Definition history_of_1 : list AsyncEvents.Call :=
  [AsyncEvents.CallInitialize 1%N; AsyncEvents.CallGetEvent 2%N].

Definition after_history_of_1 : list AsyncEvents.Returned * World :=
  AsyncEvents.calls history_of_1 world.

(** The world after [Initialize] for executor 2, and after two more calls. *)
Definition initialized_2 : World := (AsyncEvents.Initialize 2%N world).2.

Definition more_calls : list AsyncEvents.Call :=
  [AsyncEvents.CallInitialize 3%N; AsyncEvents.CallGetEvent 2%N].

Definition after_more_calls : list AsyncEvents.Returned * World :=
  AsyncEvents.calls more_calls initialized_2.

Definition async_thunk : NcclCollectiveThunk :=
  NcclCollectiveThunk.create
    (NcclCollectiveConfig.config_of kCrossReplica [[0; 1; 2]]%Z) false 0 0.

(** Three executions of that thunk: the collective fails in the first and
    succeeds in the other two. *)
Definition failing : DeviceReport :=
  {| run_nccl_collective := Failure kInternal "launch failed";
     enqueued_on_failure := false;
     block_host_until_done := OkStatus |}.

Definition succeeding : DeviceReport :=
  {| run_nccl_collective := OkStatus; enqueued_on_failure := false;
     block_host_until_done := OkStatus |}.

Definition block_failing : DeviceReport :=
  {| run_nccl_collective := OkStatus; enqueued_on_failure := false;
     block_host_until_done := Failure kInternal "stream error" |}.

Definition sync_thunk : NcclCollectiveThunk :=
  NcclCollectiveThunk.create
    (NcclCollectiveConfig.config_of kCrossReplica [[0; 1; 2]]%Z) true 0 0.

Definition three_invocations
    : list (@ExecuteParams (runtime false) * DeviceReport) :=
  [(execute_params, failing); (execute_params, succeeding);
   (execute_params, succeeding)].

Definition three_executions : list NcclCollectiveThunk.Execution :=
  default [] (@NcclCollectiveThunk.executions (runtime false) async_thunk
                three_invocations initialized_2).

Definition main_stream : Stream := {| stream_handle := 100; parent := 2%N |}.
Definition async_stream : Stream := {| stream_handle := 200; parent := 2%N |}.

Definition second_execution : NcclCollectiveThunk.Execution :=
  {| NcclCollectiveThunk.returned := OkStatus;
     NcclCollectiveThunk.issued :=
       [ThenWaitForStream async_stream main_stream;
        NcclCollective async_stream;
        ThenRecordEvent async_stream
          {| event_executor := 2%N; event_serial := 0 |};
        BlockHostUntilDone async_stream] |}.

End Fixture.

(** ** The rest of the file: configuration from HLO, and [Prepare] *)

(** What this file reads of an HLO instruction (hlo_instructions.h): the
    element types of the shapes of its operands, its replica groups, its
    channel id, and the unique id of its module. *)
Record HloInstruction : Type := {
  operand_shapes_element_type : list PrimitiveType;
  hlo_replica_groups : list ReplicaGroup;
  channel_id : option Z;
  module_unique_id : Z
}.

Definition set_kind_and_id (kind : RendezvousKey.CollectiveOpKind) (id : Z)
    (cfg : NcclCollectiveConfig) : NcclCollectiveConfig :=
  {| operand_count := operand_count cfg;
     operand_element_type := operand_element_type cfg;
     replica_groups := replica_groups cfg;
     collective_op_kind := kind; op_id := id;
     group_mode := group_mode cfg |}.

(** NcclCollectiveConfig::SetCollectiveOpKindAndID on an
    [HloCollectivePermuteInstruction]. *)
Definition SetCollectiveOpKindAndID_permute (cfg : NcclCollectiveConfig)
    (instr : HloInstruction) : NcclCollectiveConfig :=
  match channel_id instr with
  | Some id => set_kind_and_id RendezvousKey.kCrossModule id cfg
  | None =>
      set_kind_and_id RendezvousKey.kCrossReplica (module_unique_id instr) cfg
  end.

(** NcclCollectiveConfig::SetCollectiveOpKindAndID on an
    [HloSendRecvInstruction]: [channel_id().value_or(0)], then the test
    [channel_id > 0]. *)
Definition SetCollectiveOpKindAndID_send_recv (cfg : NcclCollectiveConfig)
    (instr : HloInstruction) : NcclCollectiveConfig :=
  let channel_id := default 0%Z (channel_id instr) in
  if (0 <? channel_id)%Z
  then set_kind_and_id RendezvousKey.kCrossModule channel_id cfg
  else set_kind_and_id RendezvousKey.kCrossReplica (module_unique_id instr) cfg.

(** [GetCollectiveOpGroupMode] is declared in collective_ops_utils.h. *)
Class GroupModes : Type := {
  GetCollectiveOpGroupMode :
    bool -> option bool -> StatusOr CollectiveOpGroupMode
}.

(** The loop of [GetNcclCollectiveConfig]:
    [for (int i = 0; i < config.operand_count; i++) push_back(operand(i)..)],
    started at [i] with [n] iterations left; [None] is an operand index past
    the end. *)
Fixpoint operand_types_loop (operands : list PrimitiveType) (i n : nat)
    (operand_element_type : list PrimitiveType)
    : option (list PrimitiveType) :=
  match n with
  | O => Some operand_element_type
  | S n' =>
      et ← operands !! i;
      operand_types_loop operands (S i) n' (operand_element_type ++ [et])
  end.

(** GetNcclCollectiveConfig.  [value()] on a failed [StatusOr] aborts; the
    outer [option] is [None] when an operand index is out of range. *)
Definition GetNcclCollectiveConfig `{GroupModes} (hlo : HloInstruction)
    (use_global_device_ids : option bool)
    : option (Checked NcclCollectiveConfig) :=
  let operand_count := length (operand_shapes_element_type hlo) in
  operand_element_type ←
    operand_types_loop (operand_shapes_element_type hlo) 0 operand_count [];
  let '(kind, id) :=
    match channel_id hlo with
    | Some id => (RendezvousKey.kCrossModule, id)
    | None => (RendezvousKey.kCrossReplica, module_unique_id hlo)
    end in
  match GetCollectiveOpGroupMode (bool_decide (is_Some (channel_id hlo)))
                                 use_global_device_ids with
  | Failure c m => Some (CheckFailed m)
  | Value mode =>
      Some (Returned
              {| operand_count := Z.of_nat operand_count;
                 operand_element_type := operand_element_type;
                 replica_groups := hlo_replica_groups hlo;
                 collective_op_kind := kind; op_id := id;
                 group_mode := mode |})
  end.

(** [Thunk::ResourceRequests], by its one method used here.  What
    [AddClique] returns is up to the implementation, which is given the
    requests made before. *)
Definition CliqueRequest : Type := (NcclCliqueKey * nat)%type.

Class ResourceRequests : Type := {
  AddClique : list CliqueRequest -> NcclCliqueKey -> nat -> Status
}.

(** NcclCollectiveThunk::Prepare, on [params.collective_params]; the clique
    requests are threaded through, oldest first. *)
Definition Prepare `{CollectiveRuntime} `{ResourceRequests}
    (thunk : NcclCollectiveThunk) (collectives : CollectiveExecuteParams)
    (requests : list CliqueRequest) : Status * list CliqueRequest :=
  match GetParticipatingDevices (global_device_id collectives)
          (device_assn collectives) (replica_groups (config thunk))
          (group_mode (config thunk)) with
  | Failure c m => (Failure c m, requests)
  | Value participants =>
      let local_devices :=
        match global_device_id_map collectives with
        | Some entries => map snd entries
        | None => []
        end in
      let num_local_participants :=
        GetNumLocalParticipants participants
          (match global_device_id_map collectives with
           | Some _ => Some local_devices
           | None => None
           end) in
      let key :=
        {| devices_ := participants; stream_id_ := GetStreamId thunk |} in
      (AddClique requests key num_local_participants,
       requests ++ [(key, num_local_participants)])
  end.

(** The local devices [LockNcclComm] and [Prepare] count against: the
    values of the id map, or every device when there is no map. *)
Definition local_device (collectives_map : option (list (Z * GlobalDeviceId)))
    (device : GlobalDeviceId) : Prop :=
  match collectives_map with
  | None => True
  | Some entries => device ∈ map snd entries
  end.

(** The stream operations of a log that synchronise the host. *)
Definition is_host_block (op : StreamOp) : bool :=
  match op with BlockHostUntilDone _ => true | _ => false end.

Definition host_blocks (ops : list StreamOp) : list StreamOp :=
  filter (fun op => is_host_block op = true) ops.

(** The stream an operation is issued on. *)
Definition issued_on (op : StreamOp) : Stream :=
  match op with
  | ThenWaitForStream stream _ | ThenWaitForEvent stream _
  | ThenRecordEvent stream _ | NcclCollective stream
  | BlockHostUntilDone stream => stream
  end.

(** The addresses of a buffer pair that lie in the collective memory
    space. *)
Definition collective_addresses (buffer : DeviceBufferPair)
    : list DeviceMemoryBase :=
  (if (DeviceBufferPair.source_memory_space buffer
         =? kCollectiveMemorySpaceColor)%Z
   then [DeviceBufferPair.source_buffer buffer] else []) ++
  (if (DeviceBufferPair.destination_memory_space buffer
         =? kCollectiveMemorySpaceColor)%Z
   then [DeviceBufferPair.destination_buffer buffer] else []).

(** The completion record is well formed: each event was constructed for
    the executor it is recorded under, before now, and no two executors
    share an event. *)
Definition events_well_formed (w : World) : Prop :=
  (forall executor event, events_ w !! executor = Some event ->
     event_executor event = executor /\
     event_serial event < events_constructed w) /\
  (forall e1 e2 event, events_ w !! e1 = Some event ->
     events_ w !! e2 = Some event -> e1 = e2).

(** ** More concrete collaborators *)

Module MoreFixtures.

(** Resource requests that are always granted. *)
#[export] Instance granting : ResourceRequests :=
  {| AddClique := fun _ _ _ => OkStatus |}.

(** A group mode lookup that knows the four combinations of a channel id
    with [use_global_device_ids = false] or unset, and rejects the global
    ids without a channel. *)
#[export] Instance modes : GroupModes :=
  {| GetCollectiveOpGroupMode := fun has_channel_id use_global_device_ids =>
       match has_channel_id, use_global_device_ids with
       | false, None | false, Some false => Value kCrossReplica
       | true, None => Value kCrossPartition
       | true, Some false => Value kCrossReplicaAndPartition
       | true, Some true => Value kFlattenedID
       | false, Some true =>
           Failure kInvalidArgument "global ids need a channel"
       end |}.

(** A library in which every registration fails. *)
Definition refusing : NcclApi :=
  {| RegisterBuffer := fun _ _ _ => Failure kInternal "ncclCommRegister" |}.

(** A device on which no event initialises. *)
Definition events_fail : EventDriver := {| EventInit := fun _ => false |}.

Definition all_reduce : HloInstruction :=
  {| operand_shapes_element_type := [F32; BF16];
     hlo_replica_groups := [[0; 1]; [2; 3]]%Z;
     channel_id := Some 4%Z; module_unique_id := 11 |}.

(** One execution on [Fixture.execute_params], as the triple it returns. *)
Definition run (thunk : NcclCollectiveThunk) (device : DeviceReport)
    (w : World) : Status * NcclCollectiveThunk * World :=
  default (OkStatus, thunk, w)
    (@NcclCollectiveThunk.ExecuteOnStream (Fixture.runtime false) thunk
       Fixture.execute_params device w).

(** The asynchronous thunk, with and without an initialised event. *)
Definition async_ok : Status * NcclCollectiveThunk * World :=
  run Fixture.async_thunk Fixture.succeeding Fixture.initialized_2.

Definition async_uninitialized : Status * NcclCollectiveThunk * World :=
  run Fixture.async_thunk Fixture.succeeding Fixture.world.

(** The synchronous thunk, with a launch that fails before it issues
    anything and with one that fails after. *)
Definition sync_failed : Status * NcclCollectiveThunk * World :=
  run Fixture.sync_thunk Fixture.failing Fixture.world.

Definition failing_after_issue : DeviceReport :=
  {| run_nccl_collective := Failure kInternal "launch failed";
     enqueued_on_failure := true;
     block_host_until_done := OkStatus |}.

Definition sync_failed_after_issue
    : Status * NcclCollectiveThunk * World :=
  run Fixture.sync_thunk failing_after_issue Fixture.world.

(** Registering with the library that refuses. *)
Definition refused : Status * RegisteredBuffers :=
  @MaybeRegisterBuffers refusing 0 Fixture.both_collective 5%N
    no_registered_buffers.

(** A history that initialises executors 2 and 3. *)
Definition two_executors : list AsyncEvents.Call :=
  [AsyncEvents.CallInitialize 2%N; AsyncEvents.CallInitialize 3%N;
   AsyncEvents.CallInitialize 2%N].

Definition after_two_executors : list AsyncEvents.Returned * World :=
  @AsyncEvents.calls Fixture.events_ok two_executors Fixture.world.

(** Two bindings, the first with its source in the collective memory
    space, their conversion, and the registration of the result. *)
Definition bindings : list (Buffer N) :=
  [Fixture.buffer 8 10 20 1 0; Fixture.buffer 4 30 40 0 0].

Definition converted : list DeviceBufferPair :=
  match ConvertToDeviceBuffers Fixture.allocations bindings [F32; S16] with
  | Some (Value device_buffers) => device_buffers
  | _ => []
  end.

Definition registered_converted : Status * RegisteredBuffers :=
  @MaybeRegisterBuffers Fixture.registering 0 converted 5%N
    no_registered_buffers.

(** [Initialize] for executor 2 on the device where no event initialises. *)
Definition failed_initialize : Status * World :=
  @AsyncEvents.Initialize events_fail 2%N Fixture.world.

Abbreviation main_stream :=
  (@stream (Fixture.runtime false) Fixture.execute_params).

Abbreviation async_stream :=
  (@async_comms_streams (Fixture.runtime false) Fixture.execute_params
     (GetAsyncStreamKind Fixture.async_thunk)).

End MoreFixtures.

(** * Properties *)

(** ** The degeneracy check *)

Lemma empty_spec {A} (l : list A) :
  NcclCollectiveConfig.empty l = true <-> l = [].
Proof. destruct l; simpl; split; congruence. Qed.

Lemma all_groups_singleton_spec (groups : list ReplicaGroup) :
  negb (NcclCollectiveConfig.empty groups) &&
  NcclCollectiveConfig.c_all_of groups
    (fun group => Nat.eqb (replica_ids_size group) 1) = true
  <-> NcclCollectiveConfig.all_groups_singleton groups.
Proof.
  unfold NcclCollectiveConfig.all_groups_singleton,
    NcclCollectiveConfig.c_all_of, replica_ids_size.
  rewrite andb_true_iff, negb_true_iff, forallb_forall.
  split.
  - intros [Hne Hall]. split.
    + intros ->. discriminate.
    + intros g Hg. apply Nat.eqb_eq, Hall. by apply list_elem_of_In.
  - intros [Hne Hall]. split.
    + destruct groups; [done | reflexivity].
    + intros g Hg. apply Nat.eqb_eq, Hall. by apply list_elem_of_In.
Qed.

(** C1: whenever the flattened-id mode comes with groups, [IsDegenerate]
    returns, and it returns true exactly in the cases the table lists for the
    mode. *)
Theorem IsDegenerate_matches_table (cfg : NcclCollectiveConfig)
    (replica_count partition_count : Z) :
  (group_mode cfg = kFlattenedID -> replica_groups cfg <> []) ->
  exists b,
    NcclCollectiveConfig.IsDegenerate cfg replica_count partition_count
      = Returned b /\
    (b = true <->
     NcclCollectiveConfig.degenerate_table (group_mode cfg)
       (replica_groups cfg) replica_count partition_count).
Proof.
  intros Hpre. unfold NcclCollectiveConfig.IsDegenerate.
  pose proof (all_groups_singleton_spec (replica_groups cfg)) as Hs.
  pose proof (empty_spec (replica_groups cfg)) as He.
  destruct (group_mode cfg) eqn:Hmode; cbv zeta beta match.
  - eexists; split; [reflexivity |].
    rewrite orb_true_iff, (andb_true_iff _ (_ =? _)%Z), Z.eqb_eq.
    cbn [NcclCollectiveConfig.degenerate_table]. tauto.
  - eexists; split; [reflexivity |].
    rewrite orb_true_iff, (andb_true_iff _ (_ =? _)%Z), Z.eqb_eq.
    cbn [NcclCollectiveConfig.degenerate_table]. tauto.
  - eexists; split; [reflexivity |].
    rewrite orb_true_iff, !(andb_true_iff _ (_ =? _)%Z), !Z.eqb_eq.
    cbn [NcclCollectiveConfig.degenerate_table]. tauto.
  - destruct (NcclCollectiveConfig.empty (replica_groups cfg)) eqn:E.
    + exfalso. apply Hpre; [done | by apply He].
    + cbn [negb]. eexists; split; [reflexivity |].
      cbn [NcclCollectiveConfig.degenerate_table]. rewrite <- Hs. tauto.
Qed.

Lemma IsDegenerate_matches_table_witness :
  exists b,
    NcclCollectiveConfig.IsDegenerate
      (NcclCollectiveConfig.config_of kFlattenedID [[0]; [1]; [2]; [3]]%Z) 4 1
      = Returned b /\
    (b = true <->
     NcclCollectiveConfig.degenerate_table kFlattenedID
       [[0]; [1]; [2]; [3]]%Z 4 1).
Proof.
  apply (IsDegenerate_matches_table
           (NcclCollectiveConfig.config_of kFlattenedID [[0]; [1]; [2]; [3]]%Z)
           4 1).
  simpl. discriminate.
Defined.

(** The scenario of the design document: four replicas in one group are not
    degenerate, four groups of one replica are. *)
Example IsDegenerate_one_group_of_four :
  NcclCollectiveConfig.IsDegenerate
    (NcclCollectiveConfig.config_of kCrossReplica [[0; 1; 2; 3]]%Z) 4 1
  = Returned false.
Proof. reflexivity. Qed.

Example IsDegenerate_four_groups_of_one :
  NcclCollectiveConfig.IsDegenerate
    (NcclCollectiveConfig.config_of kCrossReplica [[0]; [1]; [2]; [3]]%Z) 4 1
  = Returned true.
Proof. reflexivity. Qed.

Example IsDegenerate_no_groups_one_replica :
  NcclCollectiveConfig.IsDegenerate
    (NcclCollectiveConfig.config_of kCrossReplica []) 1 8
  = Returned true.
Proof. reflexivity. Qed.

Example IsDegenerate_no_groups_two_replicas :
  NcclCollectiveConfig.IsDegenerate
    (NcclCollectiveConfig.config_of kCrossReplica []) 2 1
  = Returned false.
Proof. reflexivity. Qed.

(** C7: in flattened-id mode the check aborts exactly when no group is
    given: with no group it fails with the message of the assertion, and
    with at least one group it returns. *)
Theorem IsDegenerate_flattened_requires_groups (cfg : NcclCollectiveConfig)
    (replica_count partition_count : Z) :
  group_mode cfg = kFlattenedID ->
  (replica_groups cfg = [] ->
   NcclCollectiveConfig.IsDegenerate cfg replica_count partition_count
   = CheckFailed
       "replica groups cannot be empty if use_global_device_ids = true") /\
  (replica_groups cfg <> [] ->
   exists b,
     NcclCollectiveConfig.IsDegenerate cfg replica_count partition_count
     = Returned b).
Proof.
  intros Hmode. unfold NcclCollectiveConfig.IsDegenerate. rewrite Hmode.
  destruct (replica_groups cfg) as [|g gs]; simpl; split; try done.
  intros _. eexists. reflexivity.
Qed.

Lemma IsDegenerate_flattened_requires_groups_witness :
  (@nil ReplicaGroup = [] ->
   NcclCollectiveConfig.IsDegenerate
     (NcclCollectiveConfig.config_of kFlattenedID []) 2 2
   = CheckFailed
       "replica groups cannot be empty if use_global_device_ids = true") /\
  (@nil ReplicaGroup <> [] ->
   exists b,
     NcclCollectiveConfig.IsDegenerate
       (NcclCollectiveConfig.config_of kFlattenedID []) 2 2
     = Returned b).
Proof.
  apply (IsDegenerate_flattened_requires_groups
           (NcclCollectiveConfig.config_of kFlattenedID []) 2 2).
  reflexivity.
Defined.

(** ** Operand validation *)

Section Operand.
Context `{ThunkKinds} `{Shapes}.

Lemma IsTypeSupportedByNccl_always (t : PrimitiveType) (reduction_op : Kind) :
  always_supported t -> IsTypeSupportedByNccl t reduction_op = true.
Proof.
  unfold always_supported. rewrite !elem_of_cons, elem_of_nil.
  intros Ht. repeat (destruct Ht as [-> | Ht]; [reflexivity |]). done.
Qed.

Lemma IsTypeSupportedByNccl_narrow (t : PrimitiveType) (reduction_op : Kind) :
  narrow_type t ->
  IsTypeSupportedByNccl t reduction_op
  = negb (IsReductionCollective reduction_op).
Proof. intros [-> | [-> | [-> | ->]]]; reflexivity. Qed.

Lemma IsTypeSupportedByNccl_outside (t : PrimitiveType) (reduction_op : Kind) :
  ~ in_supported_list t -> IsTypeSupportedByNccl t reduction_op = false.
Proof.
  unfold in_supported_list, always_supported, narrow_type.
  rewrite !elem_of_cons, elem_of_nil.
  intros Hout. destruct t; try reflexivity; exfalso; apply Hout; tauto.
Qed.

Lemma IsValidOperand_ok_iff (shape : Shape) (reduction_op : Kind) :
  IsValidOperand shape reduction_op = OkStatus <->
  IsDenseArray shape = true /\
  IsTypeSupportedByNccl (element_type shape) reduction_op = true.
Proof.
  unfold IsValidOperand.
  destruct (IsDenseArray shape); simpl; [| split; [done | intros [? _]; done]].
  destruct (IsTypeSupportedByNccl (element_type shape) reduction_op); simpl;
    split; try done. intros [_ ?]; done.
Qed.

Lemma IsValidOperand_error_code (shape : Shape) (reduction_op : Kind) :
  IsValidOperand shape reduction_op = OkStatus \/
  exists m, IsValidOperand shape reduction_op = Failure kUnimplemented m.
Proof.
  unfold IsValidOperand.
  destruct (IsDenseArray shape); simpl; [| right; eauto].
  destruct (IsTypeSupportedByNccl (element_type shape) reduction_op); simpl;
    [left | right]; eauto.
Qed.

Lemma IsTypeSupportedByNccl_transport (t : PrimitiveType)
    (reduction_op : Kind) :
  IsTypeSupportedByNccl t reduction_op = true <->
  supported_by_transport t reduction_op.
Proof.
  unfold supported_by_transport. split.
  - intros Hs. split.
    + revert Hs. unfold in_supported_list, always_supported, narrow_type.
      rewrite !elem_of_cons, elem_of_nil.
      destruct t; cbn; intros Hs; first [discriminate Hs | tauto].
    + intros Hn. rewrite (IsTypeSupportedByNccl_narrow _ _ Hn) in Hs.
      by apply negb_true_iff.
  - intros [[Ha | Hn] Hred].
    + by apply IsTypeSupportedByNccl_always.
    + rewrite (IsTypeSupportedByNccl_narrow _ _ Hn), (Hred Hn). reflexivity.
Qed.

(** C2: [IsValidOperand] accepts a shape exactly when it is a dense array
    whose element type the transport supports for the kind of operation:
    the type is one of S8, PRED, U8, S32, U32, S64, U64, F16, F32, F64,
    BF16, C64, C128, or it is one of the narrow types S16, U16, F8E5M2,
    F8E4M3FN and the operation is not a reduction; this is what
    [IsTypeSupportedByNccl] computes.  So a dense operand of one of the
    thirteen types is accepted for every kind, a dense operand of a narrow
    type is accepted exactly when the operation is not a reduction, and an
    element type outside the supported list is rejected whatever the kind.
    Every rejection is an Unimplemented error. *)
Theorem IsValidOperand_accepts_supported_dense (shape : Shape)
    (reduction_op : Kind) :
  (IsValidOperand shape reduction_op = OkStatus <->
   IsDenseArray shape = true /\
   supported_by_transport (element_type shape) reduction_op) /\
  (IsValidOperand shape reduction_op = OkStatus <->
   IsDenseArray shape = true /\
   IsTypeSupportedByNccl (element_type shape) reduction_op = true) /\
  (always_supported (element_type shape) ->
   IsTypeSupportedByNccl (element_type shape) reduction_op = true /\
   (IsValidOperand shape reduction_op = OkStatus <->
    IsDenseArray shape = true)) /\
  (narrow_type (element_type shape) ->
   IsTypeSupportedByNccl (element_type shape) reduction_op
   = negb (IsReductionCollective reduction_op) /\
   (IsValidOperand shape reduction_op = OkStatus <->
    IsDenseArray shape = true /\ IsReductionCollective reduction_op = false)) /\
  (~ in_supported_list (element_type shape) ->
   exists m, IsValidOperand shape reduction_op = Failure kUnimplemented m) /\
  (IsValidOperand shape reduction_op <> OkStatus ->
   exists m, IsValidOperand shape reduction_op = Failure kUnimplemented m).
Proof.
  pose proof (IsValidOperand_ok_iff shape reduction_op) as Hiff.
  pose proof (IsValidOperand_error_code shape reduction_op) as Hcode.
  split; [by rewrite Hiff, IsTypeSupportedByNccl_transport |].
  split; [exact Hiff |]. split; [| split; [| split]].
  - intros Ha.
    rewrite Hiff, (IsTypeSupportedByNccl_always _ reduction_op Ha).
    split; [reflexivity | tauto].
  - intros Hn.
    rewrite Hiff, (IsTypeSupportedByNccl_narrow _ reduction_op Hn).
    split; [reflexivity |]. rewrite negb_true_iff. tauto.
  - intros Hout. destruct Hcode as [Hok | Herr]; [| exact Herr].
    apply Hiff in Hok as [_ Hs].
    rewrite (IsTypeSupportedByNccl_outside _ reduction_op Hout) in Hs. done.
  - intros Hne. destruct Hcode as [Hok | Herr]; [done | exact Herr].
Qed.

End Operand.

Example IsValidOperand_F32_all_reduce :
  @IsValidOperand Fixture.kinds Fixture.shapes (F32, true)
    Fixture.kNcclAllReduce
  = OkStatus.
Proof. reflexivity. Qed.

Example IsValidOperand_S16_all_gather :
  @IsValidOperand Fixture.kinds Fixture.shapes (S16, true)
    Fixture.kNcclAllGather
  = OkStatus.
Proof. reflexivity. Qed.

Example IsValidOperand_S16_all_reduce :
  @IsValidOperand Fixture.kinds Fixture.shapes (S16, true)
    Fixture.kNcclAllReduce
  = Failure kUnimplemented "element type type not suppored by NCCL".
Proof. reflexivity. Qed.

Example IsValidOperand_F32_not_dense :
  @IsValidOperand Fixture.kinds Fixture.shapes (F32, false)
    Fixture.kNcclAllGather
  = Failure kUnimplemented "input is not a dense array: shape".
Proof. reflexivity. Qed.

Example IsValidOperand_other_type :
  @IsValidOperand Fixture.kinds Fixture.shapes (OtherPrimitiveType 13, true)
    Fixture.kNcclAllGather
  = Failure kUnimplemented "element type type not suppored by NCCL".
Proof. reflexivity. Qed.

(** ** Device buffers *)

Section Buffers.
Context {Slice : Type} (buffer_allocations : BufferAllocations Slice).

Local Abbreviation pair_of et b :=
  (DeviceBufferPair.mk et (element_count b)
     (GetDeviceAddress buffer_allocations (source_buffer b))
     (GetDeviceAddress buffer_allocations (destination_buffer b))
     (source_memory_space b) (destination_memory_space b)).

Lemma device_buffer_at_Some (buffers : list (Buffer Slice))
    (element_types : list PrimitiveType) (i : nat) (b : Buffer Slice)
    (et : PrimitiveType) :
  buffers !! i = Some b -> element_types !! i = Some et ->
  device_buffer_at buffer_allocations buffers element_types i
  = Some (pair_of et b).
Proof. intros Hb Het. unfold device_buffer_at. rewrite Het, Hb. done. Qed.

Lemma convert_loop_spec (buffers : list (Buffer Slice))
    (element_types : list PrimitiveType) (n i : nat)
    (acc : list DeviceBufferPair) :
  i + n = length buffers -> length buffers = length element_types ->
  exists l,
    convert_loop buffer_allocations buffers element_types i n acc
    = Some (acc ++ l) /\
    length l = n /\
    forall j b et, buffers !! (i + j) = Some b ->
      element_types !! (i + j) = Some et -> l !! j = Some (pair_of et b).
Proof.
  revert i acc. induction n as [|n IH]; intros i acc Hin Hlen.
  - exists []. rewrite app_nil_r. split; [done |]. split; [done |].
    intros j b et Hb _. apply lookup_lt_Some in Hb. lia.
  - destruct (lookup_lt_is_Some_2 buffers i) as [b Hb]; [lia |].
    destruct (lookup_lt_is_Some_2 element_types i) as [et Het]; [lia |].
    destruct (IH (S i) (acc ++ [pair_of et b])) as (l & Hl & Hn & Hnth);
      [lia | done |].
    exists (pair_of et b :: l). cbn [convert_loop].
    rewrite (device_buffer_at_Some _ _ _ _ _ Hb Het). cbn.
    rewrite Hl, <- app_assoc. split; [done |]. split; [cbn; lia |].
    intros [|j] b' et' Hb' Het'.
    + rewrite Nat.add_0_r in Hb', Het'. cbn. congruence.
    + cbn. apply Hnth.
      * by replace (S i + j) with (i + S j) by lia.
      * by replace (S i + j) with (i + S j) by lia.
Qed.

(** C10: [ConvertToDeviceBuffers] never reads past the end of a vector; it
    fails, with FailedPrecondition, exactly when the two lists differ in
    length; otherwise it returns as many pairs as there are buffers, the
    i-th made of the i-th element type and of the i-th buffer's element
    count, resolved addresses and memory spaces. *)
Theorem ConvertToDeviceBuffers_pairs_in_order (buffers : list (Buffer Slice))
    (element_types : list PrimitiveType) :
  (exists r,
     ConvertToDeviceBuffers buffer_allocations buffers element_types
     = Some r) /\
  ((exists c m,
      ConvertToDeviceBuffers buffer_allocations buffers element_types
      = Some (Failure c m)) <->
   length buffers <> length element_types) /\
  (length buffers <> length element_types ->
   ConvertToDeviceBuffers buffer_allocations buffers element_types
   = Some (Failure kFailedPrecondition "Mismatch in operand buffer counts.")) /\
  (length buffers = length element_types ->
   exists device_buffers,
     ConvertToDeviceBuffers buffer_allocations buffers element_types
     = Some (Value device_buffers) /\
     length device_buffers = length buffers /\
     forall i b et, buffers !! i = Some b -> element_types !! i = Some et ->
       device_buffers !! i
       = Some (DeviceBufferPair.mk et (element_count b)
                 (GetDeviceAddress buffer_allocations (source_buffer b))
                 (GetDeviceAddress buffer_allocations (destination_buffer b))
                 (source_memory_space b) (destination_memory_space b))).
Proof.
  unfold ConvertToDeviceBuffers.
  destruct (Nat.eqb_spec (length buffers) (length element_types))
    as [Heq | Hne];
    cbn [negb].
  - destruct (convert_loop_spec buffers element_types (length buffers) 0 [])
      as (l & Hl & Hn & Hnth); [lia | done |].
    rewrite Hl. cbn. repeat split; eauto; try done.
    intros (c & m & Hfail). done.
  - repeat split; eauto; try done.
Qed.

End Buffers.

Example ConvertToDeviceBuffers_two :
  ConvertToDeviceBuffers Fixture.allocations
    [Fixture.buffer 8 10 20 0 1; Fixture.buffer 4 30 40 1 0] [F32; S16]
  = Some (Value
      [DeviceBufferPair.mk F32 8 {| opaque := 10; size := 4 |}
         {| opaque := 20; size := 4 |} 0 1;
       DeviceBufferPair.mk S16 4 {| opaque := 30; size := 4 |}
         {| opaque := 40; size := 4 |} 1 0]).
Proof. reflexivity. Qed.

Example ConvertToDeviceBuffers_mismatch :
  ConvertToDeviceBuffers Fixture.allocations
    [Fixture.buffer 8 10 20 0 1] [F32; S16]
  = Some (Failure kFailedPrecondition "Mismatch in operand buffer counts.").
Proof. reflexivity. Qed.

(** ** Acquiring the communicator *)

Lemma c_find_lookup (c : list GlobalDeviceId) (value : GlobalDeviceId) :
  value ∈ c -> c !! c_find c value = Some value.
Proof.
  induction c as [|d c IH]; intros Hin; [by apply elem_of_nil in Hin |].
  cbn [c_find]. destruct (decide (d = value)) as [-> | Hne]; [done |].
  apply elem_of_cons in Hin as [-> | Hin]; [done |]. cbn. by apply IH.
Qed.

Lemma c_find_first (c : list GlobalDeviceId) (value : GlobalDeviceId)
    (j : nat) :
  j < c_find c value -> c !! j <> Some value.
Proof.
  revert j. induction c as [|d c IH]; intros j Hj; cbn [c_find] in Hj; [lia |].
  destruct (decide (d = value)) as [-> | Hne]; [lia |].
  destruct j as [|j]; cbn; [congruence |]. apply IH. lia.
Qed.

Lemma c_find_found (c : list GlobalDeviceId) (value : GlobalDeviceId) :
  (c_find c value <? length c)%nat = true <-> value ∈ c.
Proof.
  rewrite Nat.ltb_lt. split.
  - induction c as [|d c IH]; cbn [c_find length]; [lia |].
    destruct (decide (d = value)) as [-> | Hne]; [intros _; set_solver |].
    intros Hlt. apply elem_of_cons. right. apply IH. lia.
  - intros Hin. apply lookup_lt_is_Some. rewrite (c_find_lookup _ _ Hin). eauto.
Qed.

Lemma rank_is_c_find (participants : list GlobalDeviceId) (stream_id : Z)
    (id : GlobalDeviceId) :
  id ∈ participants ->
  NcclCliqueKey.rank {| devices_ := participants; stream_id_ := stream_id |} id
  = Some (Z.of_nat (c_find participants id)).
Proof.
  intros Hin. unfold NcclCliqueKey.rank. cbn [devices_].
  assert (list_find (fun d => d = id) participants
          = Some (c_find participants id, id)) as ->; [| done].
  apply list_find_Some. split; [by apply c_find_lookup |]. split; [done |].
  intros j y Hy Hj ->. by apply (c_find_first participants id j).
Qed.

Lemma rank_absent (participants : list GlobalDeviceId) (stream_id : Z)
    (id : GlobalDeviceId) :
  id ∉ participants ->
  NcclCliqueKey.rank {| devices_ := participants; stream_id_ := stream_id |} id
  = None.
Proof.
  intros Hout. unfold NcclCliqueKey.rank. cbn [devices_].
  destruct (list_find _ _) as [[i y]|] eqn:E; [| done].
  apply list_find_Some in E as (Hi & -> & _).
  exfalso. apply Hout. by eapply list_elem_of_lookup_2.
Qed.

Section Acquire.
Context `{CollectiveRuntime}.
Implicit Types (params : CollectiveExecuteParams) (cliques : CollectiveCliques).
Implicit Types (groups : list ReplicaGroup) (mode : CollectiveOpGroupMode).
Implicit Types (participants : list GlobalDeviceId) (log : list CommRequest).

(** An error of participant resolution is handed on by both functions. *)
Lemma resolution_failure_propagates params cliques groups mode
    (op_id stream_id : Z) (optimize : bool) log c m :
  GetParticipatingDevices (global_device_id params) (device_assn params)
    groups mode = Failure c m ->
  GetNcclComm params cliques groups mode stream_id log
  = Some (Failure c m, log) /\
  LockNcclComm params groups mode op_id stream_id optimize log
  = (Failure c m, log).
Proof. intros E. unfold GetNcclComm, LockNcclComm. by rewrite E. Qed.

(** C8: once the participants are resolved, with the global configuration
    active and a participant count other than the replica count both
    functions return InvalidArgument and ask nothing of the registry.  With
    the configuration inactive or the counts equal, neither result comes
    from this check: [GetNcclComm] is undefined or returns what the lookup
    of the communicator returns, and [LockNcclComm] returns the failed
    membership check, the failure of the callback lookup, or what
    [AcquireNcclComm] returns. *)
Theorem partial_groups_check params cliques groups mode
    (op_id stream_id : Z) (optimize : bool) log participants :
  GetParticipatingDevices (global_device_id params) (device_assn params)
    groups mode = Value participants ->
  (IsGlobalNcclConfig = true /\
   length participants <> replica_count (device_assn params) ->
   GetNcclComm params cliques groups mode stream_id log
   = Some (Failure kInvalidArgument partial_groups_message, log) /\
   LockNcclComm params groups mode op_id stream_id optimize log
   = (Failure kInvalidArgument partial_groups_message, log)) /\
  (IsGlobalNcclConfig = false \/
   length participants = replica_count (device_assn params) ->
   let key := {| devices_ := participants; stream_id_ := stream_id |} in
   (GetNcclComm params cliques groups mode stream_id log = None \/
    exists r,
      GetNcclComm params cliques groups mode stream_id log
      = Some (GetComm cliques key r, log ++ [GetCommRequest key r])) /\
   (LockNcclComm params groups mode op_id stream_id optimize log
    = (Failure kInternal "RET_CHECK failure: it != participants.end()", log) \/
    (exists is_local c m,
       GetNcclCliqueIdCallback (nccl_clique_id_callback params) is_local
       = Failure c m /\
       LockNcclComm params groups mode op_id stream_id optimize log
       = (Failure c m, log)) \/
    (exists num_local callback r,
       LockNcclComm params groups mode op_id stream_id optimize log
       = (AcquireNcclComm log (run_id params) op_id participants num_local
            callback r stream_id optimize,
          log ++ [AcquireRequest (run_id params) op_id participants num_local
                    r stream_id optimize])))).
Proof.
  intros E. unfold GetNcclComm, LockNcclComm, size_differs. rewrite E. split.
  - intros [-> Hne]. apply Nat.eqb_neq in Hne. rewrite Hne. done.
  - intros Hpass.
    assert (IsGlobalNcclConfig &&
            negb (length participants =? replica_count (device_assn params))%nat
            = false) as ->.
    { destruct Hpass as [-> | Heq]; [done |].
      apply Nat.eqb_eq in Heq. rewrite Heq. apply andb_false_r. }
    cbv zeta. split.
    + destruct (NcclCliqueKey.rank _ _); eauto.
    + destruct (c_find participants (global_device_id params) <? _)%nat;
        cbn [negb]; [| by left].
      right.
      destruct (GetNcclCliqueIdCallback _ _) eqn:Ecb; [right | left]; eauto 10.
Qed.

End Acquire.

Lemma partial_groups_check_witness :
  @GetNcclComm (Fixture.runtime true) (Fixture.params true 2 1%Z)
    (Fixture.cliques true) [[0; 1; 2]]%Z kCrossReplica 0 []
  = Some (Failure kInvalidArgument partial_groups_message, []) /\
  @LockNcclComm (Fixture.runtime true) (Fixture.params true 2 1%Z)
    [[0; 1; 2]]%Z kCrossReplica 5 0 false []
  = (Failure kInvalidArgument partial_groups_message, []).
Proof.
  apply (@partial_groups_check (Fixture.runtime true)
           (Fixture.params true 2 1%Z)
           (Fixture.cliques true) [[0; 1; 2]]%Z kCrossReplica 5 0 false []
           [0; 1; 2]%Z eq_refl).
  split; [reflexivity | cbn; lia].
Defined.

Section Rank.
Context `{CollectiveRuntime}.
Implicit Types (params : CollectiveExecuteParams) (cliques : CollectiveCliques).
Implicit Types (groups : list ReplicaGroup) (mode : CollectiveOpGroupMode).
Implicit Types (participants : list GlobalDeviceId) (log : list CommRequest).

(** C9: when the resolved participants contain the calling device, there is
    a position [r], the first at which the device stands in the list, such
    that the rank of the clique key is [r]; [GetNcclComm] is defined, and
    when the count check lets the call through it looks the communicator up
    with rank [r]; [LockNcclComm] passes its membership check and, unless
    the callback lookup fails, acquires the communicator with the same
    rank [r]. *)
Theorem rank_of_calling_device params cliques groups mode
    (op_id stream_id : Z) (optimize : bool) log participants :
  GetParticipatingDevices (global_device_id params) (device_assn params)
    groups mode = Value participants ->
  global_device_id params ∈ participants ->
  let key := {| devices_ := participants; stream_id_ := stream_id |} in
  exists r : nat,
    participants !! r = Some (global_device_id params) /\
    (forall j, j < r -> participants !! j <> Some (global_device_id params)) /\
    NcclCliqueKey.rank key (global_device_id params) = Some (Z.of_nat r) /\
    is_Some (GetNcclComm params cliques groups mode stream_id log) /\
    (IsGlobalNcclConfig && size_differs participants (device_assn params)
     = false ->
     GetNcclComm params cliques groups mode stream_id log
     = Some (GetComm cliques key (Z.of_nat r),
             log ++ [GetCommRequest key (Z.of_nat r)]) /\
     exists num_local is_local,
       LockNcclComm params groups mode op_id stream_id optimize log
       = match GetNcclCliqueIdCallback (nccl_clique_id_callback params)
                 is_local with
         | Failure c m => (Failure c m, log)
         | Value callback =>
             (AcquireNcclComm log (run_id params) op_id participants num_local
                callback (Z.of_nat r) stream_id optimize,
              log ++ [AcquireRequest (run_id params) op_id participants
                        num_local (Z.of_nat r) stream_id optimize])
         end).
Proof.
  intros E Hin key. exists (c_find participants (global_device_id params)).
  pose proof (rank_is_c_find participants stream_id _ Hin) as Hrank.
  split; [by apply c_find_lookup |].
  split; [intros j; apply c_find_first |].
  split; [exact Hrank |].
  unfold GetNcclComm, LockNcclComm. rewrite E. cbv zeta. rewrite Hrank.
  split.
  - destruct (IsGlobalNcclConfig && _); eauto.
  - intros ->. split; [done |].
    apply c_find_found in Hin. rewrite Hin. cbn [negb]. eauto.
Qed.

End Rank.

Lemma rank_of_calling_device_witness :
  exists r : nat,
    [0; 1; 2]%Z !! r = Some 1%Z /\
    (forall j, j < r -> [0; 1; 2]%Z !! j <> Some 1%Z) /\
    NcclCliqueKey.rank {| devices_ := [0; 1; 2]%Z; stream_id_ := 0 |} 1%Z
    = Some (Z.of_nat r) /\
    is_Some (@GetNcclComm (Fixture.runtime false) (Fixture.params false 3 1%Z)
               (Fixture.cliques false) [[0; 1; 2]]%Z kCrossReplica 0 []) /\
    (@IsGlobalNcclConfig (Fixture.runtime false) &&
     @size_differs (Fixture.runtime false) [0; 1; 2]%Z 3 = false ->
     @GetNcclComm (Fixture.runtime false) (Fixture.params false 3 1%Z)
       (Fixture.cliques false) [[0; 1; 2]]%Z kCrossReplica 0 []
     = Some (Value (Z.of_nat r),
             [GetCommRequest {| devices_ := [0; 1; 2]%Z; stream_id_ := 0 |}
                (Z.of_nat r)]) /\
     exists num_local is_local,
       @LockNcclComm (Fixture.runtime false) (Fixture.params false 3 1%Z)
         [[0; 1; 2]]%Z kCrossReplica 5 0 false []
       = match @GetNcclCliqueIdCallback (Fixture.runtime false) None is_local
         with
         | Failure c m => (Failure c m, [])
         | Value callback =>
             (@AcquireNcclComm (Fixture.runtime false) [] 7 5 [0; 1; 2]%Z
                num_local callback (Z.of_nat r) 0 false,
              [AcquireRequest 7 5 [0; 1; 2]%Z num_local (Z.of_nat r) 0 false])
         end).
Proof.
  apply (@rank_of_calling_device (Fixture.runtime false)
           (Fixture.params false 3 1%Z) (Fixture.cliques false)
           [[0; 1; 2]]%Z kCrossReplica 5 0 false [] [0; 1; 2]%Z eq_refl).
  cbn. set_solver.
Defined.

Example GetNcclComm_rank_of_device_1 :
  @GetNcclComm (Fixture.runtime false) (Fixture.params false 3 1%Z)
    (Fixture.cliques false) [[0; 1; 2]]%Z kCrossReplica 0 []
  = Some (Value 1%Z,
          [GetCommRequest {| devices_ := [0; 1; 2]%Z; stream_id_ := 0 |} 1]).
Proof. reflexivity. Qed.

Example LockNcclComm_rank_of_device_1 :
  @LockNcclComm (Fixture.runtime false) (Fixture.params false 3 1%Z)
    [[0; 1; 2]]%Z kCrossReplica 5 0 false []
  = (Value 1%Z, [AcquireRequest 7 5 [0; 1; 2]%Z 3 1 0 false]).
Proof. reflexivity. Qed.

(** A device that is not among the participants: the lookup has no rank, so
    [GetNcclComm] is undefined, while [LockNcclComm] reports the failed
    check. *)
Example GetNcclComm_device_absent :
  @GetNcclComm (Fixture.runtime false) (Fixture.params false 3 9%Z)
    (Fixture.cliques false) [[0; 1; 2]]%Z kCrossReplica 0 []
  = None.
Proof. reflexivity. Qed.

Example LockNcclComm_device_absent :
  @LockNcclComm (Fixture.runtime false) (Fixture.params false 3 9%Z)
    [[0; 1; 2]]%Z kCrossReplica 5 0 false []
  = (Failure kInternal "RET_CHECK failure: it != participants.end()", []).
Proof. reflexivity. Qed.

(** ** Buffer registration *)

Section Registration.
Context `{NcclApi}.
Implicit Types (s : RegisteredBuffers) (d : Z) (comm : NcclCommHandle).

Lemma extends_refl s : extends s s.
Proof.
  split; [done |]. split; [by exists []; rewrite app_nil_r |].
  split; [by exists []; rewrite app_nil_r | done].
Qed.

Lemma extends_trans s1 s2 s3 : extends s1 s2 -> extends s2 s3 -> extends s1 s3.
Proof.
  intros (Hr & [h Hh] & [c Hc] & Hd) (Hr' & [h' Hh'] & [c' Hc'] & Hd').
  split; [by auto |]. split; [| split].
  - exists (h ++ h'). by rewrite Hh', Hh, app_assoc.
  - exists (c ++ c'). by rewrite Hc', Hc, app_assoc.
  - set_solver.
Qed.

Lemma index_per_device_comms_total d d' s :
  per_device_comms (index_per_device_comms d s) !!! d'
  = per_device_comms s !!! d'.
Proof.
  unfold index_per_device_comms.
  destruct (per_device_comms s !! d) eqn:E; [done |]. cbn.
  destruct (decide (d = d')) as [<- | Hne].
  - by rewrite lookup_total_insert_eq, lookup_total_alt, E.
  - by rewrite lookup_total_insert_ne.
Qed.

Lemma index_per_device_comms_rest d s :
  handles (index_per_device_comms d s) = handles s /\
  register_calls (index_per_device_comms d s) = register_calls s.
Proof. unfold index_per_device_comms. by destruct (_ !! _). Qed.

Lemma index_per_device_comms_extends d s :
  extends s (index_per_device_comms d s).
Proof.
  destruct (index_per_device_comms_rest d s) as [Hh Hc].
  split; [| split; [| split]].
  - intros d' comm. unfold registered.
    by rewrite index_per_device_comms_total.
  - exists []. by rewrite Hh, app_nil_r.
  - exists []. by rewrite Hc, app_nil_r.
  - unfold index_per_device_comms. destruct (_ !! _); [done |]. cbn.
    rewrite dom_insert_L. set_solver.
Qed.

Lemma register_buffer_extends d comm buffer s status s' :
  register_buffer d comm buffer s = (status, s') ->
  extends s s' /\
  (length (handles s) < length (handles s') -> registered d comm s').
Proof.
  unfold register_buffer.
  destruct (RegisterBuffer _ _ _) as [h | c m]; intros [= <- <-]; cbn.
  - split.
    + split; [| split; [| split]]; cbn; eauto.
      * intros d' comm'. unfold registered. cbn.
        destruct (decide (d = d')) as [<- | Hne].
        -- rewrite lookup_total_insert_eq. set_solver.
        -- by rewrite lookup_total_insert_ne.
      * rewrite dom_insert_L. set_solver.
    + intros _. unfold registered. cbn. rewrite lookup_total_insert_eq.
      set_solver.
  - split; [| lia]. split; [done |]. split; [| split]; cbn; [| by eauto | done].
    exists []. by rewrite app_nil_r.
Qed.

Lemma register_pair_extends d comm buffer s status s' :
  register_pair d comm buffer s = (status, s') ->
  extends s s' /\
  (length (handles s) < length (handles s') -> registered d comm s').
Proof.
  unfold register_pair.
  pose proof (index_per_device_comms_extends d s) as H0.
  assert (length (handles (index_per_device_comms d s)) = length (handles s))
    as Hlen0 by (by destruct (index_per_device_comms_rest d s) as [-> _]).
  set (s0 := index_per_device_comms d s) in *.
  destruct (contains_comm d comm s0); cbn [negb].
  { intros [= <- <-]. split; [done |]. lia. }
  destruct (if (DeviceBufferPair.source_memory_space buffer =? _)%Z
            then register_buffer d comm
                   (DeviceBufferPair.source_buffer buffer) s0
            else (OkStatus, s0)) as [r1 s1] eqn:E1.
  assert (extends s0 s1 /\
          (length (handles s0) < length (handles s1) -> registered d comm s1))
    as [H1 Hreg1].
  { destruct (_ =? _)%Z.
    - by eapply register_buffer_extends.
    - injection E1 as <- <-. split; [apply extends_refl | lia]. }
  destruct r1 as [[] | c m].
  - destruct (DeviceBufferPair.destination_memory_space buffer =? _)%Z.
    + intros E2. apply register_buffer_extends in E2 as [H2 Hreg2].
      split; [by eauto using extends_trans |].
      intros Hlt.
      destruct (decide (length (handles s1) < length (handles s'))) as [|Hge];
        [by auto |].
      apply H2, Hreg1. lia.
    + intros [= <- <-]. split; [by eauto using extends_trans |].
      intros Hlt. apply Hreg1. lia.
  - intros [= <- <-]. split; [by eauto using extends_trans |].
    intros Hlt. apply Hreg1. lia.
Qed.

Lemma MaybeRegisterBuffers_extends d buffers comm s status s' :
  MaybeRegisterBuffers d buffers comm s = (status, s') ->
  extends s s' /\
  (length (handles s) < length (handles s') -> registered d comm s').
Proof.
  revert s. induction buffers as [|b rest IH]; intros s;
    cbn [MaybeRegisterBuffers].
  - intros [= <- <-]. split; [apply extends_refl | lia].
  - destruct (register_pair d comm b s) as [r1 s1] eqn:E1.
    apply register_pair_extends in E1 as [H1 Hreg1].
    destruct r1 as [[] | c m].
    + intros E2. apply IH in E2 as [H2 Hreg2].
      split; [by eauto using extends_trans |].
      intros Hlt.
      destruct (decide (length (handles s1) < length (handles s'))) as [|Hge];
        [by auto |].
      apply H2, Hreg1. lia.
    + intros [= <- <-]. done.
Qed.



End Registration.


Example MaybeRegisterBuffers_first_call_registers :
  registrations_between no_registered_buffers Fixture.after_first = 1 /\
  register_calls Fixture.after_first = [(5%N, {| opaque := 10; size := 32 |})].
Proof. split; reflexivity. Qed.

Example MaybeRegisterBuffers_fresh_registers_both :
  register_calls
    (@MaybeRegisterBuffers Fixture.registering 0 Fixture.both_collective 5%N
       no_registered_buffers).2
  = [(5%N, {| opaque := 30; size := 32 |});
     (5%N, {| opaque := 40; size := 32 |})].
Proof. reflexivity. Qed.

(** ** Completion records *)

Section Async.
Context `{EventDriver}.
Implicit Types (executor : StreamExecutor) (w : World).

Lemma Initialize_cases executor w status w' :
  AsyncEvents.Initialize executor w = (status, w') ->
  (is_Some (events_ w !! executor) /\ status = OkStatus /\ w' = w) \/
  (events_ w !! executor = None /\
   events_constructed w' = S (events_constructed w) /\
   stream_log w' = stream_log w /\ comm_log w' = comm_log w /\
   ((exists m, status = Failure kInternal m) /\ events_ w' = events_ w \/
    status = OkStatus /\
    events_ w'
    = <[executor := {| event_executor := executor;
                       event_serial := events_constructed w |}]> (events_ w))).
Proof.
  unfold AsyncEvents.Initialize. case_bool_decide as Hin.
  - intros [= <- <-]. by left.
  - apply eq_None_not_Some in Hin. intros E. right.
    destruct (EventInit _); cbn [negb] in E; injection E as <- <-.
    + unfold try_emplace. cbn. rewrite Hin. eauto 10.
    + cbn. eauto 10.
Qed.

(** A recorded event stays, and stays the same, through [Initialize]. *)
Lemma Initialize_keeps_event executor executor' w status w' event :
  AsyncEvents.Initialize executor w = (status, w') ->
  events_ w !! executor' = Some event -> events_ w' !! executor' = Some event.
Proof.
  intros E Hev.
  apply Initialize_cases in E
    as [(_ & _ & ->) | (Hnone & _ & _ & _ & Hc)];
    [done |].
  destruct Hc as [[_ ->] | [_ ->]]; [done |].
  rewrite lookup_insert_ne; [done | congruence].
Qed.

Lemma Initialize_ok_records executor w w' :
  AsyncEvents.Initialize executor w = (OkStatus, w') ->
  is_Some (events_ w' !! executor).
Proof.
  intros E.
  apply Initialize_cases in E as [(? & _ & ->) | (_ & _ & _ & _ & Hc)];
    [done |].
  destruct Hc as [[[m ?] _] | [_ ->]]; [done |].
  rewrite lookup_insert_eq. eauto.
Qed.

Lemma Initialize_recorded executor w :
  is_Some (events_ w !! executor) ->
  AsyncEvents.Initialize executor w = (OkStatus, w).
Proof.
  intros Hin. unfold AsyncEvents.Initialize.
  by rewrite bool_decide_eq_true_2.
Qed.

Lemma GetEvent_unchanged executor w result w' :
  AsyncEvents.GetEvent executor w = (result, w') -> w' = w.
Proof. unfold AsyncEvents.GetEvent. destruct (_ !! _); by intros [= _ <-]. Qed.

Lemma call_keeps_event (c : AsyncEvents.Call) executor w r w' event :
  AsyncEvents.call c w = (r, w') ->
  events_ w !! executor = Some event -> events_ w' !! executor = Some event.
Proof.
  destruct c as [e | e]; cbn [AsyncEvents.call].
  - destruct (AsyncEvents.Initialize e w) as [st w1] eqn:E. intros [= _ <-].
    by eapply Initialize_keeps_event.
  - destruct (AsyncEvents.GetEvent e w) as [st w1] eqn:E. intros [= _ <-].
    by apply GetEvent_unchanged in E as ->.
Qed.

Lemma calls_keep_event (cs : list AsyncEvents.Call) executor w rs w' event :
  AsyncEvents.calls cs w = (rs, w') ->
  events_ w !! executor = Some event -> events_ w' !! executor = Some event.
Proof.
  revert w rs. induction cs as [|c cs IH]; intros w rs; cbn [AsyncEvents.calls].
  - by intros [= _ <-].
  - destruct (AsyncEvents.call c w) as [r w1] eqn:E1.
    destruct (AsyncEvents.calls cs w1) as [rs1 w2] eqn:E2.
    intros [= _ <-] Hev. eapply IH; [done |]. by eapply call_keeps_event.
Qed.

(** Every recorded executor was recorded at the start or by a successful
    [Initialize] of the history. *)
Lemma calls_recorded (cs : list AsyncEvents.Call) executor w rs w' :
  AsyncEvents.calls cs w = (rs, w') ->
  is_Some (events_ w' !! executor) ->
  is_Some (events_ w !! executor) \/ AsyncEvents.initialized_in executor rs.
Proof.
  unfold AsyncEvents.initialized_in.
  revert w rs. induction cs as [|c cs IH]; intros w rs; cbn [AsyncEvents.calls].
  - intros [= _ <-]. by left.
  - destruct (AsyncEvents.call c w) as [r w1] eqn:E1.
    destruct (AsyncEvents.calls cs w1) as [rs1 w2] eqn:E2.
    intros [= <- <-] Hin.
    destruct (IH _ _ E2 Hin) as [Hin1 | Hlater];
      [| right; apply elem_of_cons; by right].
    destruct c as [e | e]; cbn [AsyncEvents.call] in E1.
    + destruct (AsyncEvents.Initialize e w) as [st w0] eqn:E.
      injection E1 as <- <-.
      apply Initialize_cases in E
        as [(_ & _ & ->) | (Hnone & _ & _ & _ & [[_ Heq] | [-> Heq]])].
      * by left.
      * rewrite Heq in Hin1. by left.
      * rewrite Heq in Hin1. destruct (decide (e = executor)) as [-> | Hne].
        -- right. apply elem_of_cons. by left.
        -- rewrite lookup_insert_ne in Hin1 by done. by left.
    + destruct (AsyncEvents.GetEvent e w) as [st w0] eqn:E.
      injection E1 as <- <-. apply GetEvent_unchanged in E as ->. by left.
Qed.

End Async.

Section Completion.
Context `{EventDriver} `{CollectiveRuntime}.
Implicit Types (executor : StreamExecutor) (w : World).

(** C3: take any history of calls on an [AsyncEvents] object since its
    construction in which [Initialize] has not succeeded for the executor,
    and any world whose completion record is the one the history left (the
    map is private, so nothing else changes it).  There [GetEvent] returns
    an Internal error and leaves the world as it is: no event is constructed
    and none is inserted.  The done thunk running on a stream of that
    executor returns the same error and issues nothing, so no wait either. *)
Theorem GetEvent_before_Initialize (cs : list AsyncEvents.Call)
    (rs : list AsyncEvents.Returned) w w' executor (params : ExecuteParams)
    (now : World) :
  fresh w ->
  AsyncEvents.calls cs w = (rs, w') ->
  ~ AsyncEvents.initialized_in executor rs ->
  events_ now = events_ w' ->
  AsyncEvents.GetEvent executor now
  = (Failure kInternal
       "Collective operation async completion event not initialized", now) /\
  (parent (stream params) = executor ->
   NcclCollectiveDoneThunk.ExecuteOnStream params now
   = (Failure kInternal
        "Collective operation async completion event not initialized", now)).
Proof.
  intros Hfresh Hcalls Hnever Hnow.
  assert (events_ now !! executor = None) as Hnone.
  { apply eq_None_not_Some. rewrite Hnow. intros Hin.
    destruct (calls_recorded cs executor w rs w' Hcalls Hin) as [Hw | Hinit];
      [| done].
    rewrite Hfresh, lookup_empty in Hw. by destruct Hw. }
  assert (AsyncEvents.GetEvent executor now
          = (Failure kInternal
               "Collective operation async completion event not initialized",
             now)) as Hget.
  { unfold AsyncEvents.GetEvent. by rewrite Hnone. }
  split; [exact Hget |].
  intros Hparent. unfold NcclCollectiveDoneThunk.ExecuteOnStream.
  rewrite Hparent, Hget. done.
Qed.

(** C4: after [Initialize] has succeeded for an executor, and after any
    further calls on the object, [Initialize] for that executor returns Ok
    and leaves the world exactly as it is (no event is constructed, the map
    is the same), and [GetEvent] returns the event it returned right after
    the first call.  The same holds for the thunk's own [Initialize]. *)
Theorem Initialize_idempotent executor w w1 (between : list AsyncEvents.Call)
    (rs : list AsyncEvents.Returned) w2 (thunk : NcclCollectiveThunk) :
  AsyncEvents.Initialize executor w = (OkStatus, w1) ->
  AsyncEvents.calls between w1 = (rs, w2) ->
  exists event,
    AsyncEvents.GetEvent executor w1 = (Value event, w1) /\
    AsyncEvents.Initialize executor w1 = (OkStatus, w1) /\
    AsyncEvents.Initialize executor w2 = (OkStatus, w2) /\
    NcclCollectiveThunk.Initialize thunk executor w2 = (OkStatus, w2) /\
    AsyncEvents.GetEvent executor w2 = (Value event, w2).
Proof.
  intros Hfirst Hbetween.
  destruct (Initialize_ok_records executor w w1 Hfirst) as [event Hev].
  pose proof (calls_keep_event _ _ _ _ _ _ Hbetween Hev) as Hev2.
  exists event.
  assert (AsyncEvents.Initialize executor w2 = (OkStatus, w2)) as Hagain
    by (apply Initialize_recorded; eauto).
  split; [unfold AsyncEvents.GetEvent; by rewrite Hev |].
  split; [apply Initialize_recorded; eauto |].
  split; [exact Hagain |].
  split; [| unfold AsyncEvents.GetEvent; by rewrite Hev2].
  unfold NcclCollectiveThunk.Initialize. rewrite Hagain.
  by destruct (async_events_ thunk).
Qed.

End Completion.

Lemma GetEvent_before_Initialize_witness :
  AsyncEvents.GetEvent 2%N Fixture.after_history_of_1.2
  = (Failure kInternal
       "Collective operation async completion event not initialized",
     Fixture.after_history_of_1.2) /\
  (parent (@stream (Fixture.runtime false) Fixture.execute_params) = 2%N ->
   @NcclCollectiveDoneThunk.ExecuteOnStream (Fixture.runtime false)
     Fixture.execute_params Fixture.after_history_of_1.2
   = (Failure kInternal
        "Collective operation async completion event not initialized",
      Fixture.after_history_of_1.2)).
Proof.
  apply (@GetEvent_before_Initialize Fixture.events_ok (Fixture.runtime false)
           Fixture.history_of_1 Fixture.after_history_of_1.1 Fixture.world
           Fixture.after_history_of_1.2 2%N Fixture.execute_params
           Fixture.after_history_of_1.2).
  - reflexivity.
  - reflexivity.
  - unfold AsyncEvents.initialized_in. cbn.
    intros Hin. apply elem_of_cons in Hin as [Hin | Hin]; [discriminate |].
    apply elem_of_cons in Hin as [Hin | Hin]; [discriminate |].
    by apply elem_of_nil in Hin.
  - reflexivity.
Defined.

Lemma Initialize_idempotent_witness :
  exists event,
    AsyncEvents.GetEvent 2%N Fixture.initialized_2
    = (Value event, Fixture.initialized_2) /\
    @AsyncEvents.Initialize Fixture.events_ok 2%N Fixture.initialized_2
    = (OkStatus, Fixture.initialized_2) /\
    @AsyncEvents.Initialize Fixture.events_ok 2%N Fixture.after_more_calls.2
    = (OkStatus, Fixture.after_more_calls.2) /\
    @NcclCollectiveThunk.Initialize Fixture.events_ok Fixture.async_thunk 2%N
      Fixture.after_more_calls.2
    = (OkStatus, Fixture.after_more_calls.2) /\
    AsyncEvents.GetEvent 2%N Fixture.after_more_calls.2
    = (Value event, Fixture.after_more_calls.2).
Proof.
  apply (@Initialize_idempotent Fixture.events_ok 2%N Fixture.world
           Fixture.initialized_2 Fixture.more_calls Fixture.after_more_calls.1
           Fixture.after_more_calls.2 Fixture.async_thunk).
  - reflexivity.
  - reflexivity.
Defined.

Example GetEvent_after_Initialize :
  AsyncEvents.GetEvent 2%N Fixture.after_more_calls.2
  = (Value {| event_executor := 2%N; event_serial := 0 |},
     Fixture.after_more_calls.2) /\
  events_constructed Fixture.after_more_calls.2 = 2.
Proof. split; reflexivity. Qed.

(** ** The host synchronisation of the first execution *)

Section FirstCall.
Context `{CollectiveRuntime}.
Implicit Types (thunk : NcclCollectiveThunk) (params : ExecuteParams).
Implicit Types (device : DeviceReport) (w : World).

Ltac no_block :=
  let Hin := fresh "Hin" in
  intros ? Hin;
  repeat (apply elem_of_cons in Hin as [Hin | Hin]; [discriminate Hin |]);
  by apply elem_of_nil in Hin.

Lemma without_block_nil : without_block [].
Proof. intros s. apply not_elem_of_nil. Qed.

(** One execution: the log grows by the operations issued; the instance
    keeps its configuration; once the flag is down it stays down and no
    host synchronisation is issued; while it is up, an execution that
    returns Ok synchronises the host with the issuing stream and lowers the
    flag, and one that fails leaves the flag up. *)
Lemma ExecuteOnStream_step thunk params device w status thunk' w' :
  NcclCollectiveThunk.ExecuteOnStream thunk params device w
  = Some (status, thunk', w') ->
  exists ops,
    stream_log w' = stream_log w ++ ops /\
    async_events_ thunk' = async_events_ thunk /\
    GetAsyncStreamKind thunk' = GetAsyncStreamKind thunk /\
    (first_call_to_execute_ thunk = false ->
     first_call_to_execute_ thunk' = false /\ without_block ops) /\
    (first_call_to_execute_ thunk = true ->
     (status = OkStatus ->
      first_call_to_execute_ thunk' = false /\
      BlockHostUntilDone (NcclCollectiveThunk.issuing_stream thunk params)
      ∈ ops) /\
     (status <> OkStatus -> first_call_to_execute_ thunk' = true)).
Proof.
  unfold NcclCollectiveThunk.ExecuteOnStream,
    NcclCollectiveThunk.issuing_stream, NcclCollectiveThunk.IsAsync,
    NcclCollectiveThunk.RunNcclCollective.
  intros E.
  destruct (GetNcclComm _ _ _ _ _ _) as [[[comm | c m] log] |]; [| | done].
  2: { injection E as <- <- <-. exists []. rewrite app_nil_r.
       repeat split; try done. apply without_block_nil. }
  destruct (first_call_to_execute_ thunk) eqn:Hfirst;
    destruct (async_events_ thunk) eqn:Hasync;
    destruct (run_nccl_collective device) as [[] | c m];
    try destruct (enqueued_on_failure device);
    try (destruct (AsyncEvents.GetEvent (parent (stream params)) _)
           as [[event | c m] w1] eqn:Hget;
         pose proof (GetEvent_unchanged _ _ _ _ Hget) as ->);
    try (destruct (block_host_until_done device) as [[] | c' m']);
    injection E as <- <- <-;
    (eexists; split;
     [cbn; rewrite <- ?app_assoc;
      first [reflexivity | symmetry; apply app_nil_r] |]);
    (split; [by cbn |]); (split; [by cbn |]);
    (split; [intros Hf; first [discriminate Hf | split; [done | no_block]] |]);
    intros Hf;
    first [discriminate Hf
          | split;
            [intros Hs;
             first [discriminate Hs | split; [reflexivity | set_solver]]
            | intros Hs; done]].
Qed.

End FirstCall.

Section Executions.
Context `{CollectiveRuntime}.
Implicit Types (thunk : NcclCollectiveThunk) (w : World).
Implicit Types (invocations : list (ExecuteParams * DeviceReport)).
Implicit Types (history : list NcclCollectiveThunk.Execution).

Lemma issued_ops w w' (ops : list StreamOp) :
  stream_log w' = stream_log w ++ ops ->
  drop (length (stream_log w)) (stream_log w') = ops.
Proof. intros ->. apply drop_app_length. Qed.

(** With the flag down, no execution synchronises the host. *)
Lemma executions_flag_down thunk invocations w history :
  first_call_to_execute_ thunk = false ->
  NcclCollectiveThunk.executions thunk invocations w = Some history ->
  forall j e, history !! j = Some e -> ~ NcclCollectiveThunk.blocks_host e.
Proof.
  revert thunk w history.
  induction invocations as [|[params device] rest IH];
    intros thunk w history Hdown; cbn [NcclCollectiveThunk.executions].
  - intros [= <-] j e Hj. by rewrite lookup_nil in Hj.
  - destruct (NcclCollectiveThunk.ExecuteOnStream thunk params device w)
      as [[[status thunk'] w'] |] eqn:E; [| done].
    destruct (ExecuteOnStream_step _ _ _ _ _ _ _ E)
      as (ops & Hlog & _ & _ & Hfalse & _).
    destruct (Hfalse Hdown) as [Hdown' Hnone].
    destruct (NcclCollectiveThunk.executions thunk' rest w')
      as [later |] eqn:El;
      [| done].
    cbn. intros [= <-] [|j] e Hj; cbn in Hj.
    + injection Hj as <-. intros [s Hs]. cbn in Hs.
      rewrite (issued_ops _ _ _ Hlog) in Hs. by apply (Hnone s).
    + by eapply IH.
Qed.

(** C6: start from an instance whose flag is up, as the constructor leaves
    it, and run it any number of times.  The first execution that returns Ok
    synchronises the host with the stream it issued the collective on (the
    async stream of an asynchronous thunk, the main stream of a synchronous
    one), and no execution after it synchronises the host with any
    stream. *)
Theorem host_blocked_by_first_completed_execution thunk invocations w history
    (k : nat) (params : ExecuteParams) (device : DeviceReport)
    (e : NcclCollectiveThunk.Execution) :
  first_call_to_execute_ thunk = true ->
  NcclCollectiveThunk.executions thunk invocations w = Some history ->
  invocations !! k = Some (params, device) ->
  history !! k = Some e ->
  NcclCollectiveThunk.returned e = OkStatus ->
  (forall j e', j < k -> history !! j = Some e' ->
                NcclCollectiveThunk.returned e' <> OkStatus) ->
  BlockHostUntilDone (NcclCollectiveThunk.issuing_stream thunk params)
  ∈ NcclCollectiveThunk.issued e /\
  (forall j e', k < j -> history !! j = Some e' ->
                ~ NcclCollectiveThunk.blocks_host e').
Proof.
  revert thunk w history k.
  induction invocations as [|[params0 device0] rest IH];
    intros thunk w history k Hup; cbn [NcclCollectiveThunk.executions].
  - intros _ Hk. by rewrite lookup_nil in Hk.
  - destruct (NcclCollectiveThunk.ExecuteOnStream thunk params0 device0 w)
      as [[[status thunk'] w'] |] eqn:E; [| done].
    destruct (ExecuteOnStream_step _ _ _ _ _ _ _ E)
      as (ops & Hlog & Hasync & Hkind & _ & Htrue).
    destruct (Htrue Hup) as [Hok Hfail].
    destruct (NcclCollectiveThunk.executions thunk' rest w')
      as [later |] eqn:El;
      [| done].
    cbn. intros [= <-]. destruct k as [|k]; cbn.
    + intros [= <- <-] [= <-]. cbn. intros Hst _.
      destruct (Hok Hst) as [Hdown Hblock].
      rewrite (issued_ops _ _ _ Hlog). split; [exact Hblock |].
      intros [|j] e' Hj He'; [lia |]. cbn in He'.
      by eapply executions_flag_down.
    + intros Hk He Hst Hbefore.
      assert (status <> OkStatus) as Hne.
      { apply (Hbefore 0 _ ltac:(lia) eq_refl). }
      assert (NcclCollectiveThunk.issuing_stream thunk params
              = NcclCollectiveThunk.issuing_stream thunk' params) as ->.
      { unfold NcclCollectiveThunk.issuing_stream, NcclCollectiveThunk.IsAsync.
        by rewrite Hasync, Hkind. }
      destruct (IH thunk' w' later k (Hfail Hne) El Hk He Hst)
        as [Hblock Hafter].
      { intros j e' Hj He'. apply (Hbefore (S j) e'); [lia | done]. }
      split; [exact Hblock |].
      intros [|j] e' Hj He'; [lia |]. cbn in He'.
      apply (Hafter j e'); [lia | done].
Qed.

End Executions.

Example three_executions_of_an_async_thunk :
  Fixture.three_executions
  = [ {| NcclCollectiveThunk.returned := Failure kInternal "launch failed";
         NcclCollectiveThunk.issued :=
           [ThenWaitForStream Fixture.async_stream Fixture.main_stream] |};
      Fixture.second_execution;
      {| NcclCollectiveThunk.returned := OkStatus;
         NcclCollectiveThunk.issued :=
           [ThenWaitForStream Fixture.async_stream Fixture.main_stream;
            NcclCollective Fixture.async_stream;
            ThenRecordEvent Fixture.async_stream
              {| event_executor := 2%N; event_serial := 0 |}] |} ].
Proof. reflexivity. Qed.

Lemma host_blocked_by_first_completed_execution_witness :
  BlockHostUntilDone
    (@NcclCollectiveThunk.issuing_stream (Fixture.runtime false)
       Fixture.async_thunk Fixture.execute_params)
  ∈ NcclCollectiveThunk.issued Fixture.second_execution /\
  (forall j e', 1 < j -> Fixture.three_executions !! j = Some e' ->
                ~ NcclCollectiveThunk.blocks_host e').
Proof.
  apply (@host_blocked_by_first_completed_execution (Fixture.runtime false)
           Fixture.async_thunk Fixture.three_invocations Fixture.initialized_2
           Fixture.three_executions 1 Fixture.execute_params
           Fixture.succeeding Fixture.second_execution).
  - reflexivity.
  - reflexivity.
  - reflexivity.
  - reflexivity.
  - reflexivity.
  - intros [|j] e' Hj He'; [| lia].
    injection He' as <-. discriminate.
Defined.

(** A synchronous thunk issues on the main stream and synchronises the host
    with it, the first time only. *)
Example two_executions_of_a_sync_thunk :
  @NcclCollectiveThunk.executions (Fixture.runtime false) Fixture.sync_thunk
    [(Fixture.execute_params, Fixture.succeeding);
     (Fixture.execute_params, Fixture.succeeding)] Fixture.world
  = Some
      [ {| NcclCollectiveThunk.returned := OkStatus;
           NcclCollectiveThunk.issued :=
             [NcclCollective Fixture.main_stream;
              BlockHostUntilDone Fixture.main_stream] |};
        {| NcclCollectiveThunk.returned := OkStatus;
           NcclCollectiveThunk.issued :=
             [NcclCollective Fixture.main_stream] |} ].
Proof. reflexivity. Qed.

(** An execution whose host synchronisation fails has not completed: the
    flag stays up and the next execution synchronises again. *)
Example execution_after_a_failed_synchronisation :
  @NcclCollectiveThunk.executions (Fixture.runtime false) Fixture.sync_thunk
    [(Fixture.execute_params, Fixture.block_failing);
     (Fixture.execute_params, Fixture.succeeding)] Fixture.world
  = Some
      [ {| NcclCollectiveThunk.returned := Failure kInternal "stream error";
           NcclCollectiveThunk.issued :=
             [NcclCollective Fixture.main_stream;
              BlockHostUntilDone Fixture.main_stream] |};
        {| NcclCollectiveThunk.returned := OkStatus;
           NcclCollectiveThunk.issued :=
             [NcclCollective Fixture.main_stream;
              BlockHostUntilDone Fixture.main_stream] |} ].
Proof. reflexivity. Qed.

(** The constructor leaves the flag up. *)
Example create_leaves_flag_up (cfg : NcclCollectiveConfig) (is_sync : bool)
    (stream_id async_stream_kind : Z) :
  first_call_to_execute_
    (NcclCollectiveThunk.create cfg is_sync stream_id async_stream_kind)
  = true.
Proof. reflexivity. Qed.

(** ** Local participants *)

Lemma c_linear_search_spec (l : list Z) (x : Z) :
  c_linear_search l x = true <-> x ∈ l.
Proof.
  unfold c_linear_search. rewrite existsb_exists. split.
  - intros (y & Hy & Heq). apply Z.eqb_eq in Heq as ->.
    by apply list_elem_of_In.
  - intros Hin. exists x. split; [by apply list_elem_of_In | apply Z.eqb_refl].
Qed.

Lemma c_count_if_le {A} (l : list A) (p : A -> bool) :
  c_count_if l p <= length l.
Proof. unfold c_count_if. apply length_filter. Qed.

Lemma c_count_if_all {A} (l : list A) (p : A -> bool) :
  c_count_if l p = length l <-> forall a, a ∈ l -> p a = true.
Proof.
  unfold c_count_if. induction l as [|a l IH].
  - split; [intros _ a Ha; by apply elem_of_nil in Ha | done].
  - rewrite filter_cons. pose proof (length_filter (fun a => p a = true) l).
    destruct (decide (p a = true)) as [Hp | Hp]; cbn [length].
    + split.
      * intros Hlen a' Ha'. apply elem_of_cons in Ha' as [-> | Ha']; [done |].
        apply IH; [lia | done].
      * intros Hall. f_equal. apply IH. intros a' Ha'. apply Hall.
        apply elem_of_cons. by right.
    + split; [lia |]. intros Hall. exfalso. apply Hp, Hall.
      apply elem_of_cons. by left.
Qed.

Lemma num_local_participants_spec (participants : list Z)
    (local_devices : option (list Z)) :
  GetNumLocalParticipants participants local_devices <= length participants /\
  (GetNumLocalParticipants participants local_devices = length participants
   <-> forall d, d ∈ participants ->
         match local_devices with None => True | Some local => d ∈ local end).
Proof.
  destruct local_devices as [local |]; cbn [GetNumLocalParticipants].
  - split; [apply c_count_if_le |].
    rewrite c_count_if_all. split; intros Hall d Hd.
    + by apply c_linear_search_spec, Hall.
    + by apply c_linear_search_spec, Hall.
  - split; [lia |]. split; [done | reflexivity].
Qed.

(** X1: [GetNumLocalParticipants] never exceeds the number of participants,
    and reaches it exactly when every participant is among the local
    devices; with a null list of local devices every participant counts. *)
Theorem GetNumLocalParticipants_all_local (participants : list Z)
    (local_devices : option (list Z)) :
  GetNumLocalParticipants participants local_devices <= length participants /\
  (GetNumLocalParticipants participants local_devices = length participants
   <-> forall d, d ∈ participants ->
         match local_devices with
         | None => True
         | Some local => d ∈ local
         end) /\
  (local_devices = None ->
   GetNumLocalParticipants participants local_devices = length participants).
Proof.
  destruct (num_local_participants_spec participants local_devices)
    as [Hle Hiff].
  split; [exact Hle |]. split; [exact Hiff |]. by intros ->.
Qed.

Example GetNumLocalParticipants_two_of_three :
  GetNumLocalParticipants [0; 1; 2]%Z (Some [2; 5; 0]%Z) = 2.
Proof. reflexivity. Qed.

Section Local.
Context `{CollectiveRuntime}.
Implicit Types (params : CollectiveExecuteParams) (cliques : CollectiveCliques).
Implicit Types (groups : list ReplicaGroup) (mode : CollectiveOpGroupMode).
Implicit Types (participants : list GlobalDeviceId) (log : list CommRequest).

(** The number of local participants, as [LockNcclComm] and [Prepare]
    compute it from the id map. *)
Lemma num_local_of_map participants
    (id_map : option (list (Z * GlobalDeviceId))) :
  let num_local :=
    GetNumLocalParticipants participants
      (match id_map with
       | Some _ =>
           Some (match id_map with
                 | Some entries => map snd entries
                 | None => []
                 end)
       | None => None
       end) in
  num_local <= length participants /\
  ((length participants =? num_local)%nat = true <->
   forall d, d ∈ participants -> local_device id_map d).
Proof.
  cbv zeta.
  destruct id_map as [entries |];
    match goal with
    | |- context [GetNumLocalParticipants ?ps ?l] =>
        destruct (num_local_participants_spec ps l) as (Hle & Hiff)
    end; (split; [exact Hle |]); rewrite Nat.eqb_eq; cbn [local_device];
    (etrans; [| exact Hiff]); split; intros Heq; symmetry; exact Heq.
Qed.

(** X2: when [LockNcclComm] gets past its checks, it asks for the clique id
    callback as for a local clique exactly when every participant is a
    local device (always, without an id map); it then returns the failure of
    that lookup, or acquires the communicator for all the participants with
    a count of local participants that is at most their number. *)
Theorem LockNcclComm_local_clique params groups mode (op_id stream_id : Z)
    (optimize : bool) log participants :
  GetParticipatingDevices (global_device_id params) (device_assn params)
    groups mode = Value participants ->
  IsGlobalNcclConfig && size_differs participants (device_assn params)
  = false ->
  global_device_id params ∈ participants ->
  exists (is_local : bool) (num_local : nat),
    (is_local = true <->
     forall d, d ∈ participants ->
       local_device (global_device_id_map params) d) /\
    num_local <= length participants /\
    LockNcclComm params groups mode op_id stream_id optimize log
    = match GetNcclCliqueIdCallback (nccl_clique_id_callback params)
              is_local with
      | Failure c m => (Failure c m, log)
      | Value callback =>
          (AcquireNcclComm log (run_id params) op_id participants num_local
             callback (Z.of_nat (c_find participants (global_device_id params)))
             stream_id optimize,
           log ++ [AcquireRequest (run_id params) op_id participants num_local
                     (Z.of_nat (c_find participants (global_device_id params)))
                     stream_id optimize])
      end.
Proof.
  intros E Hpass Hin.
  destruct (num_local_of_map participants (global_device_id_map params))
    as [Hle Hiff].
  eexists _, _. split; [exact Hiff |]. split; [exact Hle |].
  unfold LockNcclComm. rewrite E, Hpass.
  apply c_find_found in Hin. rewrite Hin. reflexivity.
Qed.

(** What [LockNcclComm] adds to the log, when it adds anything: the request
    carries the offset of the calling device among the participants. *)
Lemma LockNcclComm_request params groups mode (op_id stream_id : Z)
    (optimize : bool) log participants result (request : CommRequest) :
  GetParticipatingDevices (global_device_id params) (device_assn params)
    groups mode = Value participants ->
  LockNcclComm params groups mode op_id stream_id optimize log
  = (result, log ++ [request]) ->
  global_device_id params ∈ participants /\
  exists num_local,
    request
    = AcquireRequest (run_id params) op_id participants num_local
        (Z.of_nat (c_find participants (global_device_id params)))
        stream_id optimize.
Proof.
  intros E. unfold LockNcclComm. rewrite E.
  assert (forall (r : StatusOr NcclCommLock),
            (r, log) = (result, log ++ [request]) -> False) as Hsame.
  { intros r [= _ Hlog]. apply (f_equal length) in Hlog.
    rewrite length_app in Hlog. cbn in Hlog. lia. }
  destruct (IsGlobalNcclConfig && _); [intros E'; by apply Hsame in E' |].
  cbv zeta.
  destruct (c_find participants (global_device_id params) <? _)%nat eqn:Hfound;
    cbn [negb]; [| intros E'; by apply Hsame in E'].
  apply c_find_found in Hfound.
  destruct (GetNcclCliqueIdCallback _ _); [| intros E'; by apply Hsame in E'].
  intros [= _ Hlog]. apply app_inv_head in Hlog. injection Hlog as <-.
  split; [done |]. eauto.
Qed.

(** X3: whenever two calls of [LockNcclComm] that resolve the same
    participants both go on to acquire a communicator, the ranks they pass
    lie in the range of the participants, and equal ranks come from the
    same device. *)
Theorem LockNcclComm_ranks_distinct params1 params2 groups mode
    (op_id stream_id : Z) (optimize : bool) log1 log2 participants
    result1 result2 (run1 run2 op1 op2 : Z) ps1 ps2 (n1 n2 : nat)
    (rank1 rank2 : Z) (s1 s2 : Z) (o1 o2 : bool) :
  GetParticipatingDevices (global_device_id params1) (device_assn params1)
    groups mode = Value participants ->
  GetParticipatingDevices (global_device_id params2) (device_assn params2)
    groups mode = Value participants ->
  LockNcclComm params1 groups mode op_id stream_id optimize log1
  = (result1, log1 ++ [AcquireRequest run1 op1 ps1 n1 rank1 s1 o1]) ->
  LockNcclComm params2 groups mode op_id stream_id optimize log2
  = (result2, log2 ++ [AcquireRequest run2 op2 ps2 n2 rank2 s2 o2]) ->
  (0 <= rank1 < Z.of_nat (length participants))%Z /\
  (0 <= rank2 < Z.of_nat (length participants))%Z /\
  (rank1 = rank2 -> global_device_id params1 = global_device_id params2).
Proof.
  intros E1 E2 L1 L2.
  destruct (LockNcclComm_request _ _ _ _ _ _ _ _ _ _ E1 L1) as [Hin1 [m1 R1]].
  destruct (LockNcclComm_request _ _ _ _ _ _ _ _ _ _ E2 L2) as [Hin2 [m2 R2]].
  injection R1 as -> -> -> -> -> -> ->. injection R2 as -> -> -> -> -> -> ->.
  pose proof (proj2 (c_find_found _ _) Hin1) as Hlt1.
  pose proof (proj2 (c_find_found _ _) Hin2) as Hlt2.
  apply Nat.ltb_lt in Hlt1, Hlt2.
  split; [lia |]. split; [lia |].
  intros Heq. apply Nat2Z.inj in Heq.
  pose proof (c_find_lookup _ _ Hin1) as Hl1.
  pose proof (c_find_lookup _ _ Hin2) as Hl2.
  rewrite Heq in Hl1. congruence.
Qed.

End Local.

Lemma LockNcclComm_local_clique_witness :
  exists (is_local : bool) (num_local : nat),
    (is_local = true <->
     forall d, d ∈ [0; 1; 2]%Z ->
       local_device
         (@global_device_id_map (Fixture.runtime false)
            (Fixture.params false 3 1%Z)) d) /\
    num_local <= length [0; 1; 2]%Z /\
    @LockNcclComm (Fixture.runtime false) (Fixture.params false 3 1%Z)
      [[0; 1; 2]]%Z kCrossReplica 5 0 false []
    = match @GetNcclCliqueIdCallback (Fixture.runtime false) None is_local with
      | Failure c m => (Failure c m, [])
      | Value callback =>
          (@AcquireNcclComm (Fixture.runtime false) [] 7 5 [0; 1; 2]%Z
             num_local callback (Z.of_nat (c_find [0; 1; 2]%Z 1%Z)) 0 false,
           [AcquireRequest 7 5 [0; 1; 2]%Z num_local
              (Z.of_nat (c_find [0; 1; 2]%Z 1%Z)) 0 false])
      end.
Proof.
  apply (@LockNcclComm_local_clique (Fixture.runtime false)
           (Fixture.params false 3 1%Z) [[0; 1; 2]]%Z kCrossReplica 5 0 false
           [] [0; 1; 2]%Z eq_refl eq_refl).
  cbn. set_solver.
Defined.

Lemma LockNcclComm_ranks_distinct_witness :
  (0 <= 1 < Z.of_nat (length [0; 1; 2]%Z))%Z /\
  (0 <= 2 < Z.of_nat (length [0; 1; 2]%Z))%Z /\
  (1%Z = 2%Z ->
   @global_device_id (Fixture.runtime false) (Fixture.params false 3 1%Z)
   = @global_device_id (Fixture.runtime false) (Fixture.params false 3 2%Z)).
Proof.
  apply (@LockNcclComm_ranks_distinct (Fixture.runtime false)
           (Fixture.params false 3 1%Z) (Fixture.params false 3 2%Z)
           [[0; 1; 2]]%Z kCrossReplica 5 0 false [] [] [0; 1; 2]%Z
           (Value 1%Z) (Value 2%Z) 7 7 5 5 [0; 1; 2]%Z [0; 1; 2]%Z 3 3 1 2
           0 0 false false eq_refl eq_refl eq_refl eq_refl).
Defined.

Section PrepareThenExecute.
Context `{CollectiveRuntime} `{ResourceRequests}.
Implicit Types (thunk : NcclCollectiveThunk) (cliques : CollectiveCliques).
Implicit Types (collectives : CollectiveExecuteParams).

(** X4: when the participants resolve, [Prepare] asks for exactly one
    clique, the one keyed by the participants and the stream id of the
    thunk, with at most as many local participants as participants, and it
    returns what [AddClique] returns.  It is the key of every communicator
    lookup [GetNcclComm] makes for the same thunk and parameters.  [Prepare]
    asks for it whether or not the partial-groups check would let the
    execution through. *)
Theorem Prepare_requests_the_executed_clique thunk collectives cliques
    (requests : list CliqueRequest) (log : list CommRequest)
    (participants : list GlobalDeviceId) :
  GetParticipatingDevices (global_device_id collectives)
    (device_assn collectives) (replica_groups (config thunk))
    (group_mode (config thunk)) = Value participants ->
  let key :=
    {| devices_ := participants; stream_id_ := GetStreamId thunk |} in
  exists num_local,
    num_local <= length participants /\
    Prepare thunk collectives requests
    = (AddClique requests key num_local, requests ++ [(key, num_local)]) /\
    forall result log',
      GetNcclComm collectives cliques (replica_groups (config thunk))
        (group_mode (config thunk)) (GetStreamId thunk) log
      = Some (result, log') ->
      (log' = log /\
       result = Failure kInvalidArgument partial_groups_message) \/
      exists r, log' = log ++ [GetCommRequest key r] /\
                result = GetComm cliques key r.
Proof.
  intros E key.
  destruct (num_local_of_map participants (global_device_id_map collectives))
    as [Hle _].
  eexists. split; [exact Hle |]. split.
  - unfold Prepare. rewrite E. reflexivity.
  - intros result log'. unfold GetNcclComm. rewrite E.
    destruct (IsGlobalNcclConfig && _); [intros [= <- <-]; by left |].
    cbv zeta. fold key. destruct (NcclCliqueKey.rank key _) as [r |]; [| done].
    intros [= <- <-]. right. eauto.
Qed.

(** A failed resolution is handed on by [Prepare], which then asks for
    nothing. *)
Lemma Prepare_resolution_failure thunk collectives
    (requests : list CliqueRequest) c m :
  GetParticipatingDevices (global_device_id collectives)
    (device_assn collectives) (replica_groups (config thunk))
    (group_mode (config thunk)) = Failure c m ->
  Prepare thunk collectives requests = (Failure c m, requests).
Proof. intros E. unfold Prepare. by rewrite E. Qed.

End PrepareThenExecute.

Lemma Prepare_requests_the_executed_clique_witness :
  exists num_local,
    num_local <= length [0; 1; 2]%Z /\
    @Prepare (Fixture.runtime false) MoreFixtures.granting Fixture.async_thunk
      (Fixture.params false 3 1%Z) []
    = (OkStatus,
       [({| devices_ := [0; 1; 2]%Z; stream_id_ := 0 |}, num_local)]) /\
    forall result log',
      @GetNcclComm (Fixture.runtime false) (Fixture.params false 3 1%Z)
        (Fixture.cliques false) [[0; 1; 2]]%Z kCrossReplica 0 []
      = Some (result, log') ->
      (log' = [] /\
       result = Failure kInvalidArgument partial_groups_message) \/
      exists r,
        log' = [GetCommRequest {| devices_ := [0; 1; 2]%Z; stream_id_ := 0 |} r]
        /\ result = Value r.
Proof.
  apply (@Prepare_requests_the_executed_clique (Fixture.runtime false)
           MoreFixtures.granting Fixture.async_thunk
           (Fixture.params false 3 1%Z) (Fixture.cliques false) [] []
           [0; 1; 2]%Z).
  reflexivity.
Defined.

(** ** Configuration from HLO *)

Lemma operand_types_loop_spec (operands : list PrimitiveType) (n i : nat)
    (acc : list PrimitiveType) :
  i + n = length operands ->
  operand_types_loop operands i n acc = Some (acc ++ drop i operands).
Proof.
  revert i acc. induction n as [|n IH]; intros i acc Hin; cbn.
  - rewrite drop_ge by lia. by rewrite app_nil_r.
  - destruct (lookup_lt_is_Some_2 operands i) as [et Het]; [lia |].
    rewrite Het. cbn. rewrite IH by lia.
    rewrite (drop_S _ _ _ Het), <- app_assoc. done.
Qed.

(** X5: the two overloads of [SetCollectiveOpKindAndID] give the same
    configuration exactly when the instruction has no channel id or a
    positive one.  With a channel id that is zero or negative the
    collective-permute overload keys the operation by that channel id across
    modules, while the send/recv overload keys it by the unique id of the
    module across replicas.  Neither touches the rest of the
    configuration. *)
Theorem SetCollectiveOpKindAndID_overloads (cfg : NcclCollectiveConfig)
    (instr : HloInstruction) :
  (SetCollectiveOpKindAndID_send_recv cfg instr
   = SetCollectiveOpKindAndID_permute cfg instr <->
   channel_id instr = None \/
   exists id, channel_id instr = Some id /\ (0 < id)%Z) /\
  (forall id, channel_id instr = Some id -> (id <= 0)%Z ->
     SetCollectiveOpKindAndID_permute cfg instr
     = set_kind_and_id RendezvousKey.kCrossModule id cfg /\
     SetCollectiveOpKindAndID_send_recv cfg instr
     = set_kind_and_id RendezvousKey.kCrossReplica (module_unique_id instr)
         cfg) /\
  (forall set, set = SetCollectiveOpKindAndID_permute \/
               set = SetCollectiveOpKindAndID_send_recv ->
     replica_groups (set cfg instr) = replica_groups cfg /\
     group_mode (set cfg instr) = group_mode cfg /\
     operand_count (set cfg instr) = operand_count cfg /\
     operand_element_type (set cfg instr) = operand_element_type cfg).
Proof.
  unfold SetCollectiveOpKindAndID_send_recv, SetCollectiveOpKindAndID_permute.
  split; [| split].
  - destruct (channel_id instr) as [id |]; cbn -[Z.ltb].
    + destruct (Z.ltb_spec 0 id) as [Hpos | Hle].
      * split; [intros _; right; eauto | intros _; reflexivity].
      * split.
        -- intros Heq. apply (f_equal collective_op_kind) in Heq.
           discriminate Heq.
        -- intros [? | (id' & [= <-] & ?)]; [done | lia].
    + cbn. split; [by left | done].
  - intros id -> Hle. cbn -[Z.ltb].
    destruct (Z.ltb_spec 0 id); [lia | done].
  - intros set [-> | ->]; destruct (channel_id instr) as [id |]; cbn -[Z.ltb];
      try destruct (0 <? _)%Z; done.
Qed.

Lemma ConvertToDeviceBuffers_equal_lengths {Slice}
    (allocations : BufferAllocations Slice) (buffers : list (Buffer Slice))
    (element_types : list PrimitiveType) :
  length buffers = length element_types ->
  exists device_buffers,
    ConvertToDeviceBuffers allocations buffers element_types
    = Some (Value device_buffers) /\
    length device_buffers = length buffers.
Proof.
  intros Hlen. unfold ConvertToDeviceBuffers.
  apply Nat.eqb_eq in Hlen as Heqb. rewrite Heqb. cbn [negb].
  destruct (convert_loop_spec allocations buffers element_types
              (length buffers) 0 []) as (l & -> & Hn & _); [lia | done |].
  cbn. eauto.
Qed.

Section Config.
Context `{GroupModes}.

(** X6: [GetNcclCollectiveConfig] reads no operand past the end.  It aborts
    exactly when [GetCollectiveOpGroupMode] fails.  Otherwise the
    configuration lists the element types of the operands, in order, with
    their number as the operand count, copies the replica groups, and has the
    kind and id that the collective-permute overload of
    [SetCollectiveOpKindAndID] would set; and [ConvertToDeviceBuffers], given
    as many buffers as the instruction has operands and the element types
    of the configuration, returns one pair for each. *)
Theorem GetNcclCollectiveConfig_operands (hlo : HloInstruction)
    (use_global_device_ids : option bool) :
  exists r,
    GetNcclCollectiveConfig hlo use_global_device_ids = Some r /\
    ((exists m, r = CheckFailed m) <->
     exists c m,
       GetCollectiveOpGroupMode (bool_decide (is_Some (channel_id hlo)))
         use_global_device_ids = Failure c m) /\
    forall cfg, r = Returned cfg ->
      operand_element_type cfg = operand_shapes_element_type hlo /\
      operand_count cfg = Z.of_nat (length (operand_shapes_element_type hlo)) /\
      replica_groups cfg = hlo_replica_groups hlo /\
      GetCollectiveOpGroupMode (bool_decide (is_Some (channel_id hlo)))
        use_global_device_ids = Value (group_mode cfg) /\
      SetCollectiveOpKindAndID_permute cfg hlo = cfg /\
      forall (Slice : Type) (allocations : BufferAllocations Slice)
             (buffers : list (Buffer Slice)),
        length buffers = length (operand_shapes_element_type hlo) ->
        exists device_buffers,
          ConvertToDeviceBuffers allocations buffers (operand_element_type cfg)
          = Some (Value device_buffers) /\
          length device_buffers = length buffers.
Proof.
  unfold GetNcclCollectiveConfig.
  rewrite (operand_types_loop_spec _ _ 0 []) by lia. cbn [mbind option_bind].
  rewrite drop_0, app_nil_l.
  destruct (GetCollectiveOpGroupMode _ _) as [mode | c m] eqn:Emode.
  - destruct (channel_id hlo) as [id |] eqn:Eid; eexists;
      (split; [reflexivity |]);
      (split; [split; [intros [? [=]] | intros (? & ? & [=])] |]);
      intros cfg [= <-]; cbn; unfold SetCollectiveOpKindAndID_permute;
      rewrite Eid; (repeat split; try done);
      intros Slice allocations buffers Hlen;
      apply ConvertToDeviceBuffers_equal_lengths, Hlen.
  - destruct (channel_id hlo) as [id |]; eexists; (split; [reflexivity |]);
      (split; [split; eauto |]); intros cfg [=].
Qed.

End Config.

Example GetNcclCollectiveConfig_all_reduce :
  @GetNcclCollectiveConfig MoreFixtures.modes MoreFixtures.all_reduce
    (Some false)
  = Some (Returned
            {| operand_count := 2; operand_element_type := [F32; BF16];
               replica_groups := [[0; 1]; [2; 3]]%Z;
               collective_op_kind := RendezvousKey.kCrossModule; op_id := 4;
               group_mode := kCrossReplicaAndPartition |}).
Proof. reflexivity. Qed.

(** ** One execution, case by case *)

(** Splits an equation [ExecuteOnStream .. = Some (status, thunk', w')]
    into the paths through the function, leaving in each the equations of
    the tests taken. *)
Ltac execute_cases E :=
  unfold NcclCollectiveThunk.ExecuteOnStream,
    NcclCollectiveThunk.issuing_stream, NcclCollectiveThunk.IsAsync,
    NcclCollectiveThunk.RunNcclCollective in *;
  let Ecomm := fresh "Ecomm" in
  let Hfirst := fresh "Hfirst" in
  let Hasync := fresh "Hasync" in
  let Hrun := fresh "Hrun" in
  let Henq := fresh "Henq" in
  let Hget := fresh "Hget" in
  let Hblock := fresh "Hblock" in
  match type of E with
  | context [GetNcclComm ?p ?c ?g ?m ?s ?l] =>
      destruct (GetNcclComm p c g m s l) as [[[? | ? ?] ?] |] eqn:Ecomm;
      [| | discriminate E]
  end;
  [ match type of E with
    | context [first_call_to_execute_ ?t] =>
        destruct (first_call_to_execute_ t) eqn:Hfirst;
        destruct (async_events_ t) eqn:Hasync
    end;
    match type of E with
    | context [run_nccl_collective ?d] =>
        destruct (run_nccl_collective d) as [[] | ? ?] eqn:Hrun
    end;
    try match type of E with
    | context [enqueued_on_failure ?d] =>
        destruct (enqueued_on_failure d) eqn:Henq
    end;
    try match type of E with
    | context [AsyncEvents.GetEvent ?e ?w0] =>
        destruct (AsyncEvents.GetEvent e w0) as [[? | ? ?] ?] eqn:Hget;
        let Hw := fresh "Hw" in
        pose proof (GetEvent_unchanged _ _ _ _ Hget) as Hw; subst
    end;
    try match type of E with
    | context [block_host_until_done ?d] =>
        destruct (block_host_until_done d) as [[] | ? ?] eqn:Hblock
    end;
    first [discriminate E | inversion E; subst; clear E]
  | first [discriminate E | inversion E; subst; clear E] ].

Section OneExecution.
Context `{CollectiveRuntime}.
Implicit Types (thunk : NcclCollectiveThunk) (params : ExecuteParams).
Implicit Types (device : DeviceReport) (w : World).

Lemma GetEvent_Value executor w event w' :
  AsyncEvents.GetEvent executor w = (Value event, w') ->
  events_ w !! executor = Some event.
Proof.
  unfold AsyncEvents.GetEvent. destruct (_ !! _); [| done].
  by intros [= -> _].
Qed.

Lemma GetEvent_Failure executor w c m w' :
  AsyncEvents.GetEvent executor w = (Failure c m, w') ->
  events_ w !! executor = None /\ c = kInternal /\
  m = "Collective operation async completion event not initialized"%string.
Proof.
  unfold AsyncEvents.GetEvent. destruct (_ !! _); [done |].
  by intros [= <- <- _].
Qed.

(** X7: when an asynchronous thunk executes and returns Ok, the stream
    operations it issued are, in this order: the async stream waits for the
    main stream, the collective goes on the async stream, the completion
    event of the executor of the main stream is recorded on the async
    stream, and, if this is the first completed execution, the host is
    synchronised with the async stream.  The done thunk run next on the same
    parameters returns Ok and makes the main stream wait for that very
    event. *)
Theorem done_waits_for_the_recorded_event thunk params device w thunk' w' :
  async_events_ thunk = true ->
  NcclCollectiveThunk.ExecuteOnStream thunk params device w
  = Some (OkStatus, thunk', w') ->
  let async_stream := async_comms_streams params (GetAsyncStreamKind thunk) in
  exists event,
    events_ w !! parent (stream params) = Some event /\
    drop (length (stream_log w)) (stream_log w')
    = [ThenWaitForStream async_stream (stream params);
       NcclCollective async_stream;
       ThenRecordEvent async_stream event] ++
      (if first_call_to_execute_ thunk
       then [BlockHostUntilDone async_stream] else []) /\
    NcclCollectiveDoneThunk.ExecuteOnStream params w'
    = (OkStatus, issue (ThenWaitForEvent (stream params) event) w').
Proof.
  intros Ha E. execute_cases E; try congruence;
    match goal with
    | Hg : AsyncEvents.GetEvent _ _ = (Value ?event, _) |- _ =>
        apply GetEvent_Value in Hg; cbn in Hg; exists event;
        (split; [exact Hg |]);
        (split;
         [cbn; rewrite <- !app_assoc, drop_app_length; reflexivity |]);
        unfold NcclCollectiveDoneThunk.ExecuteOnStream, AsyncEvents.GetEvent;
        cbn; by rewrite Hg
    end.
Qed.

End OneExecution.

Section OneExecutionMore.
Context `{CollectiveRuntime}.
Implicit Types (thunk : NcclCollectiveThunk) (params : ExecuteParams).
Implicit Types (device : DeviceReport) (w : World).

Lemma log_grew_not_same (l ops : list StreamOp) :
  l ++ ops = l -> ops = [].
Proof.
  intros Heq. apply (f_equal length) in Heq. rewrite length_app in Heq.
  apply length_zero_iff_nil. lia.
Qed.

(** X8: an asynchronous thunk executed for an executor whose completion
    event has not been initialised never returns Ok and stays as it was, flag
    included.  When the communicator is obtained and the collective launches,
    the missing event is noticed only then: the async stream has been made
    to wait and the collective has been issued, no event is recorded, the
    host is not synchronised, and the error is Internal. *)
Theorem ExecuteOnStream_before_Initialize thunk params device w status
    thunk' w' :
  async_events_ thunk = true ->
  events_ w !! parent (stream params) = None ->
  NcclCollectiveThunk.ExecuteOnStream thunk params device w
  = Some (status, thunk', w') ->
  status <> OkStatus /\
  thunk' = thunk /\
  forall comm log,
    GetNcclComm (collective_params params) (collective_cliques params)
      (replica_groups (config thunk)) (group_mode (config thunk))
      (GetStreamId thunk) (comm_log w) = Some (Value comm, log) ->
    run_nccl_collective device = OkStatus ->
    status
    = Failure kInternal
        "Collective operation async completion event not initialized" /\
    drop (length (stream_log w)) (stream_log w')
    = [ThenWaitForStream
         (async_comms_streams params (GetAsyncStreamKind thunk))
         (stream params);
       NcclCollective (async_comms_streams params (GetAsyncStreamKind thunk))].
Proof.
  intros Ha Hnone E. execute_cases E; try congruence;
    try match goal with
    | Hg : AsyncEvents.GetEvent _ _ = (Value _, _) |- _ =>
        apply GetEvent_Value in Hg; cbn in Hg; congruence
    end;
    try match goal with
    | Hg : AsyncEvents.GetEvent _ _ = (Failure _ _, _) |- _ =>
        apply GetEvent_Failure in Hg as (_ & -> & ->)
    end;
    (split; [done |]); (split; [done |]);
    intros comm' log' Ecomm' Hrun'; try congruence;
    (split; [done |]);
    cbn; rewrite <- !app_assoc, drop_app_length; reflexivity.
Qed.

(** X10: when [ExecuteOnStream] fails to obtain the communicator it
    returns that failure, issues nothing on any stream and leaves the
    instance as it was.  An asynchronous thunk issues nothing only then,
    for it makes the async stream wait before it launches.  Once the
    communicator is obtained and the launch reports Ok, the collective is
    on the issuing stream.  A synchronous thunk that issued nothing either
    got no communicator or returns the failure of its launch. *)
Theorem ExecuteOnStream_issues_nothing_without_comm thunk params device w
    status thunk' w' :
  NcclCollectiveThunk.ExecuteOnStream thunk params device w
  = Some (status, thunk', w') ->
  let comm :=
    GetNcclComm (collective_params params) (collective_cliques params)
      (replica_groups (config thunk)) (group_mode (config thunk))
      (GetStreamId thunk) (comm_log w) in
  (forall c m log, comm = Some (Failure c m, log) ->
     status = Failure c m /\ thunk' = thunk /\ w' = set_comm_log log w /\
     stream_log w' = stream_log w) /\
  (NcclCollectiveThunk.IsAsync thunk = true ->
   (stream_log w' = stream_log w <->
    exists c m log, comm = Some (Failure c m, log))) /\
  (forall lock log, comm = Some (Value lock, log) ->
     run_nccl_collective device = OkStatus ->
     NcclCollective (NcclCollectiveThunk.issuing_stream thunk params)
     ∈ drop (length (stream_log w)) (stream_log w')) /\
  (stream_log w' = stream_log w ->
   (exists c m log, comm = Some (Failure c m, log)) \/
   (exists c m,
      NcclCollectiveThunk.IsAsync thunk = false /\
      run_nccl_collective device = Failure c m /\
      enqueued_on_failure device = false /\
      status = Failure c m /\ thunk' = thunk)).
Proof.
  intros E comm. subst comm. execute_cases E.
  all: (split; [intros c' m' log' [=]; by subst |]).
  all: (split;
     [intros Hasync'; split;
      [intros Heq; cbn in Heq; rewrite <- ?app_assoc in Heq;
       first [discriminate Hasync' | by eauto
             | apply log_grew_not_same in Heq; discriminate Heq]
      | intros (c' & m' & log' & [=]); reflexivity ]
     |]).
  all: (split;
     [intros lock' log' Heq Hrun'; try discriminate Heq; try congruence;
      cbn; rewrite <- ?app_assoc, drop_app_length; set_solver |]).
  all: intros Heq; cbn in Heq; rewrite <- ?app_assoc in Heq;
    first [ left; by eauto
          | apply log_grew_not_same in Heq; discriminate Heq
          | right; by eauto 10 ].
Qed.

End OneExecutionMore.

Section OneExecutionInvariants.
Context `{CollectiveRuntime}.
Implicit Types (thunk : NcclCollectiveThunk) (params : ExecuteParams).
Implicit Types (device : DeviceReport) (w : World).

(** X16: an execution synchronises the host at most once, and only as its
    last stream operation, on the issuing stream, after the collective has
    been issued there, and only while the flag of the instance is up. *)
Theorem ExecuteOnStream_blocks_last thunk params device w status thunk' w' :
  NcclCollectiveThunk.ExecuteOnStream thunk params device w
  = Some (status, thunk', w') ->
  let ops := drop (length (stream_log w)) (stream_log w') in
  host_blocks ops = [] \/
  (first_call_to_execute_ thunk = true /\
   exists before,
     ops = before ++
           [BlockHostUntilDone
              (NcclCollectiveThunk.issuing_stream thunk params)] /\
     host_blocks before = [] /\
     NcclCollective (NcclCollectiveThunk.issuing_stream thunk params)
     ∈ before).
Proof.
  intros E. execute_cases E; cbn;
    rewrite <- ?app_assoc, ?drop_app_length, ?drop_all;
    first
      [ by left
      | right; split; [done |];
        match goal with
        | |- exists before, ?l = _ /\ _ => exists (removelast l)
        end;
        cbn; split; [reflexivity |]; split; [reflexivity | set_solver] ].
Qed.

(** X17: an execution never touches the completion record: the map of
    events and the number of constructed events are as before.  Of the
    registry it asks at most one thing, the lookup of a communicator, and
    never an acquisition.  It keeps the configuration, the stream id and the
    kind of the instance, and never raises the flag. *)
Theorem ExecuteOnStream_leaves_events thunk params device w status thunk' w' :
  NcclCollectiveThunk.ExecuteOnStream thunk params device w
  = Some (status, thunk', w') ->
  events_ w' = events_ w /\
  events_constructed w' = events_constructed w /\
  (comm_log w' = comm_log w \/
   exists key r, comm_log w' = comm_log w ++ [GetCommRequest key r]) /\
  config thunk' = config thunk /\
  GetStreamId thunk' = GetStreamId thunk /\
  async_events_ thunk' = async_events_ thunk /\
  (first_call_to_execute_ thunk = false ->
   first_call_to_execute_ thunk' = false).
Proof.
  intros E.
  assert (forall r log,
            GetNcclComm (collective_params params) (collective_cliques params)
              (replica_groups (config thunk)) (group_mode (config thunk))
              (GetStreamId thunk) (comm_log w) = Some (r, log) ->
            log = comm_log w \/
            exists key rk, log = comm_log w ++ [GetCommRequest key rk])
    as Hlog.
  { intros r log. unfold GetNcclComm.
    destruct (GetParticipatingDevices _ _ _ _); [| intros [= _ <-]; by left].
    destruct (IsGlobalNcclConfig && _); [intros [= _ <-]; by left |].
    cbv zeta. destruct (NcclCliqueKey.rank _ _); [| done].
    intros [= _ <-]. right. eauto. }
  execute_cases E; specialize (Hlog _ _ eq_refl);
    cbn; repeat split; try done; congruence.
Qed.

End OneExecutionInvariants.

Section SyncThunk.
Context `{CollectiveRuntime} `{EventDriver}.
Implicit Types (thunk : NcclCollectiveThunk) (params : ExecuteParams).
Implicit Types (device : DeviceReport) (w : World).

(** X9: for a synchronous thunk, [Initialize] returns Ok and does nothing,
    whatever the executor; and every stream operation an execution issues is
    on the main stream and is the collective or the host synchronisation:
    no stream is made to wait and no event is recorded. *)
Theorem sync_thunk_uses_the_main_stream thunk (executor : StreamExecutor)
    params device w :
  async_events_ thunk = false ->
  NcclCollectiveThunk.Initialize thunk executor w = (OkStatus, w) /\
  forall status thunk' w',
    NcclCollectiveThunk.ExecuteOnStream thunk params device w
    = Some (status, thunk', w') ->
    forall op, op ∈ drop (length (stream_log w)) (stream_log w') ->
      op = NcclCollective (stream params) \/
      op = BlockHostUntilDone (stream params).
Proof.
  intros Hs. split.
  - unfold NcclCollectiveThunk.Initialize. by rewrite Hs.
  - intros status thunk' w' E. execute_cases E; try congruence;
      cbn; rewrite <- ?app_assoc, ?drop_app_length, ?drop_all;
      intros op Hop;
      repeat (apply elem_of_cons in Hop as [-> | Hop]; [by eauto |]);
      by apply elem_of_nil in Hop.
Qed.

End SyncThunk.

Lemma sync_thunk_uses_the_main_stream_witness :
  @NcclCollectiveThunk.Initialize Fixture.events_ok Fixture.sync_thunk 2%N
    Fixture.world
  = (OkStatus, Fixture.world) /\
  forall status thunk' w',
    @NcclCollectiveThunk.ExecuteOnStream (Fixture.runtime false)
      Fixture.sync_thunk Fixture.execute_params Fixture.succeeding
      Fixture.world
    = Some (status, thunk', w') ->
    forall op,
      op ∈ drop (length (stream_log Fixture.world)) (stream_log w') ->
      op = NcclCollective
             (@stream (Fixture.runtime false) Fixture.execute_params) \/
      op = BlockHostUntilDone
             (@stream (Fixture.runtime false) Fixture.execute_params).
Proof.
  apply (@sync_thunk_uses_the_main_stream (Fixture.runtime false)
           Fixture.events_ok Fixture.sync_thunk 2%N Fixture.execute_params
           Fixture.succeeding Fixture.world).
  reflexivity.
Defined.

Lemma done_waits_for_the_recorded_event_witness :
  exists event,
    events_ Fixture.initialized_2 !! parent MoreFixtures.main_stream
    = Some event /\
    drop (length (stream_log Fixture.initialized_2))
         (stream_log MoreFixtures.async_ok.2)
    = [ThenWaitForStream MoreFixtures.async_stream MoreFixtures.main_stream;
       NcclCollective MoreFixtures.async_stream;
       ThenRecordEvent MoreFixtures.async_stream event] ++
      (if first_call_to_execute_ Fixture.async_thunk
       then [BlockHostUntilDone MoreFixtures.async_stream] else []) /\
    @NcclCollectiveDoneThunk.ExecuteOnStream (Fixture.runtime false)
      Fixture.execute_params MoreFixtures.async_ok.2
    = (OkStatus,
       issue (ThenWaitForEvent MoreFixtures.main_stream event)
         MoreFixtures.async_ok.2).
Proof.
  apply (@done_waits_for_the_recorded_event (Fixture.runtime false)
           Fixture.async_thunk Fixture.execute_params Fixture.succeeding
           Fixture.initialized_2 MoreFixtures.async_ok.1.2
           MoreFixtures.async_ok.2).
  - reflexivity.
  - reflexivity.
Defined.

Lemma ExecuteOnStream_before_Initialize_witness :
  MoreFixtures.async_uninitialized.1.1 <> OkStatus /\
  MoreFixtures.async_uninitialized.1.2 = Fixture.async_thunk /\
  forall comm log,
    @GetNcclComm (Fixture.runtime false)
      (@collective_params (Fixture.runtime false) Fixture.execute_params)
      (@collective_cliques (Fixture.runtime false) Fixture.execute_params)
      (replica_groups (config Fixture.async_thunk))
      (group_mode (config Fixture.async_thunk))
      (GetStreamId Fixture.async_thunk) (comm_log Fixture.world)
    = Some (Value comm, log) ->
    run_nccl_collective Fixture.succeeding = OkStatus ->
    MoreFixtures.async_uninitialized.1.1
    = Failure kInternal
        "Collective operation async completion event not initialized" /\
    drop (length (stream_log Fixture.world))
         (stream_log MoreFixtures.async_uninitialized.2)
    = [ThenWaitForStream MoreFixtures.async_stream MoreFixtures.main_stream;
       NcclCollective MoreFixtures.async_stream].
Proof.
  apply (@ExecuteOnStream_before_Initialize (Fixture.runtime false)
           Fixture.async_thunk Fixture.execute_params Fixture.succeeding
           Fixture.world).
  - reflexivity.
  - reflexivity.
  - reflexivity.
Defined.

Example failed_launch_of_a_sync_thunk :
  MoreFixtures.sync_failed.1.1 = Failure kInternal "launch failed" /\
  stream_log MoreFixtures.sync_failed.2 = stream_log Fixture.world /\
  MoreFixtures.sync_failed_after_issue.1.1
  = Failure kInternal "launch failed" /\
  drop (length (stream_log Fixture.world))
       (stream_log MoreFixtures.sync_failed_after_issue.2)
  = [NcclCollective MoreFixtures.main_stream].
Proof. repeat split; reflexivity. Qed.

Lemma ExecuteOnStream_issues_nothing_without_comm_witness :
  (forall c m log,
     @GetNcclComm (Fixture.runtime false)
       (@collective_params (Fixture.runtime false) Fixture.execute_params)
       (@collective_cliques (Fixture.runtime false) Fixture.execute_params)
       (replica_groups (config Fixture.sync_thunk))
       (group_mode (config Fixture.sync_thunk))
       (GetStreamId Fixture.sync_thunk) (comm_log Fixture.world)
     = Some (Failure c m, log) ->
     MoreFixtures.sync_failed.1.1 = Failure c m /\
     MoreFixtures.sync_failed.1.2 = Fixture.sync_thunk /\
     MoreFixtures.sync_failed.2 = set_comm_log log Fixture.world /\
     stream_log MoreFixtures.sync_failed.2 = stream_log Fixture.world) /\
  (NcclCollectiveThunk.IsAsync Fixture.sync_thunk
   = true ->
   (stream_log MoreFixtures.sync_failed.2 = stream_log Fixture.world <->
    exists c m log,
      @GetNcclComm (Fixture.runtime false)
       (@collective_params (Fixture.runtime false) Fixture.execute_params)
       (@collective_cliques (Fixture.runtime false) Fixture.execute_params)
       (replica_groups (config Fixture.sync_thunk))
       (group_mode (config Fixture.sync_thunk))
       (GetStreamId Fixture.sync_thunk) (comm_log Fixture.world)
      = Some (Failure c m, log))) /\
  (forall lock log,
     @GetNcclComm (Fixture.runtime false)
       (@collective_params (Fixture.runtime false) Fixture.execute_params)
       (@collective_cliques (Fixture.runtime false) Fixture.execute_params)
       (replica_groups (config Fixture.sync_thunk))
       (group_mode (config Fixture.sync_thunk))
       (GetStreamId Fixture.sync_thunk) (comm_log Fixture.world)
     = Some (Value lock, log) ->
     run_nccl_collective Fixture.failing = OkStatus ->
     NcclCollective
       (@NcclCollectiveThunk.issuing_stream (Fixture.runtime false)
          Fixture.sync_thunk Fixture.execute_params)
     ∈ drop (length (stream_log Fixture.world))
            (stream_log MoreFixtures.sync_failed.2)) /\
  (stream_log MoreFixtures.sync_failed.2 = stream_log Fixture.world ->
   (exists c m log,
      @GetNcclComm (Fixture.runtime false)
       (@collective_params (Fixture.runtime false) Fixture.execute_params)
       (@collective_cliques (Fixture.runtime false) Fixture.execute_params)
       (replica_groups (config Fixture.sync_thunk))
       (group_mode (config Fixture.sync_thunk))
       (GetStreamId Fixture.sync_thunk) (comm_log Fixture.world)
      = Some (Failure c m, log)) \/
   (exists c m,
      NcclCollectiveThunk.IsAsync Fixture.sync_thunk
      = false /\
      run_nccl_collective Fixture.failing = Failure c m /\
      enqueued_on_failure Fixture.failing = false /\
      MoreFixtures.sync_failed.1.1 = Failure c m /\
      MoreFixtures.sync_failed.1.2 = Fixture.sync_thunk)).
Proof.
  apply (@ExecuteOnStream_issues_nothing_without_comm (Fixture.runtime false)
           Fixture.sync_thunk Fixture.execute_params Fixture.failing
           Fixture.world MoreFixtures.sync_failed.1.1
           MoreFixtures.sync_failed.1.2 MoreFixtures.sync_failed.2).
  reflexivity.
Defined.

Lemma ExecuteOnStream_blocks_last_witness :
  host_blocks (drop (length (stream_log Fixture.initialized_2))
                    (stream_log MoreFixtures.async_ok.2)) = [] \/
  (first_call_to_execute_ Fixture.async_thunk = true /\
   exists before,
     drop (length (stream_log Fixture.initialized_2))
          (stream_log MoreFixtures.async_ok.2)
     = before ++
       [BlockHostUntilDone
          (@NcclCollectiveThunk.issuing_stream (Fixture.runtime false)
             Fixture.async_thunk Fixture.execute_params)] /\
     host_blocks before = [] /\
     NcclCollective
       (@NcclCollectiveThunk.issuing_stream (Fixture.runtime false)
          Fixture.async_thunk Fixture.execute_params)
     ∈ before).
Proof.
  apply (@ExecuteOnStream_blocks_last (Fixture.runtime false)
           Fixture.async_thunk Fixture.execute_params Fixture.succeeding
           Fixture.initialized_2 MoreFixtures.async_ok.1.1
           MoreFixtures.async_ok.1.2 MoreFixtures.async_ok.2).
  reflexivity.
Defined.

Lemma ExecuteOnStream_leaves_events_witness :
  events_ MoreFixtures.async_ok.2 = events_ Fixture.initialized_2 /\
  events_constructed MoreFixtures.async_ok.2
  = events_constructed Fixture.initialized_2 /\
  (comm_log MoreFixtures.async_ok.2 = comm_log Fixture.initialized_2 \/
   exists key r,
     comm_log MoreFixtures.async_ok.2
     = comm_log Fixture.initialized_2 ++ [GetCommRequest key r]) /\
  config MoreFixtures.async_ok.1.2 = config Fixture.async_thunk /\
  GetStreamId MoreFixtures.async_ok.1.2 = GetStreamId Fixture.async_thunk /\
  async_events_ MoreFixtures.async_ok.1.2 = async_events_ Fixture.async_thunk
  /\
  (first_call_to_execute_ Fixture.async_thunk = false ->
   first_call_to_execute_ MoreFixtures.async_ok.1.2 = false).
Proof.
  apply (@ExecuteOnStream_leaves_events (Fixture.runtime false)
           Fixture.async_thunk Fixture.execute_params Fixture.succeeding
           Fixture.initialized_2 MoreFixtures.async_ok.1.1
           MoreFixtures.async_ok.1.2 MoreFixtures.async_ok.2).
  reflexivity.
Defined.

(** ** What a registration call does *)

(** Closes [x ∈ l] for an element written out in the list [l]. *)
Ltac in_list :=
  cbn; solve [repeat first [apply list_elem_of_here
                           | apply list_elem_of_further]].

Section RegistrationCalls.
Context `{NcclApi}.
Implicit Types (s : RegisteredBuffers) (d : Z) (comm : NcclCommHandle).

(** One for a failure, none for Ok. *)
Definition failed (status : Status) : nat :=
  match status with Value _ => 0 | Failure _ _ => 1 end.

(** What a run of the loop over [buffers] has done between two states: the
    calls and handles it appended, with the facts that tie them to the
    buffers, to the status and to the table. *)
Definition summary d comm (buffers : list DeviceBufferPair) s
    (status : Status) s' : Prop :=
  exists (new_calls : list RegisterCall)
         (new_handles : list NcclRegisteredBufferHandle),
    register_calls s' = register_calls s ++ new_calls /\
    handles s' = handles s ++ new_handles /\
    length new_calls <= 2 /\
    (forall call, call ∈ new_calls ->
       call.1 = comm /\
       exists b, b ∈ buffers /\ call.2 ∈ collective_addresses b) /\
    length new_calls = length new_handles + failed status /\
    (new_handles <> [] -> registered d comm s') /\
    (forall c m, status = Failure c m ->
       exists before address,
         new_calls = before ++ [(comm, address)] /\
         RegisterBuffer (register_calls s ++ before) comm address
         = Failure c m) /\
    (registered d comm s -> new_calls = []).

Lemma register_pair_summary d comm (b : DeviceBufferPair) s status s' :
  register_pair d comm b s = (status, s') ->
  summary d comm [b] s status s'.
Proof.
  unfold register_pair, summary.
  destruct (index_per_device_comms_rest d s) as [Hh Hc].
  assert (forall comm', registered d comm' (index_per_device_comms d s)
                        <-> registered d comm' s) as Hsame.
  { intros comm'. unfold registered. by rewrite index_per_device_comms_total. }
  set (s0 := index_per_device_comms d s) in *.
  unfold contains_comm. case_bool_decide as Hreg; cbn [negb].
  { intros [= <- <-]. exists [], []. rewrite Hh, Hc, !app_nil_r.
    split; [done |]. split; [done |]. split; [cbn; lia |].
    split; [intros call Hcall; by apply elem_of_nil in Hcall |].
    split; [done |]. split; [done |]. split; [intros c m [=] | done]. }
  assert (~ registered d comm s) as Hnot by (intros ?; by apply Hreg, Hsame).
  unfold register_buffer, collective_addresses.
  destruct (DeviceBufferPair.source_memory_space b =? _)%Z eqn:Esrc;
    [destruct (RegisterBuffer (register_calls s0) comm
                 (DeviceBufferPair.source_buffer b)) as [h1 | c1 m1] eqn:R1 |];
    cbn [register_calls handles per_device_comms];
    try (destruct (DeviceBufferPair.destination_memory_space b =? _)%Z
           eqn:Edst;
         [match goal with
          | |- context [RegisterBuffer ?l comm
                          (DeviceBufferPair.destination_buffer b)] =>
              destruct (RegisterBuffer l comm
                          (DeviceBufferPair.destination_buffer b))
                as [h2 | c2 m2] eqn:R2
          end |]);
    intros [= <- <-]; cbn [register_calls handles per_device_comms];
    rewrite ?Hh, ?Hc in *; rewrite <- ?app_assoc;
    eexists _, _;
    (split; [first [reflexivity | symmetry; apply app_nil_r] |]);
    (split; [first [reflexivity | symmetry; apply app_nil_r] |]);
    (split; [cbn; lia |]);
    (split;
     [intros call Hcall; cbn in Hcall;
      repeat (apply elem_of_cons in Hcall as [-> | Hcall];
              [split; [done |]; exists b; rewrite ?Esrc, ?Edst;
               split; in_list |]);
      by apply elem_of_nil in Hcall |]);
    (split; [cbn; lia |]);
    (split;
     [intros Hne;
      first [done
            | unfold registered; cbn; rewrite ?lookup_total_insert_eq;
              apply elem_of_union; left; by apply elem_of_singleton] |]);
    (split; [| done]);
    intros c m Hst; try discriminate Hst; injection Hst as <- <-;
    first [ exists [], (DeviceBufferPair.source_buffer b);
            split; [reflexivity |]; by rewrite app_nil_r
          | exists [], (DeviceBufferPair.destination_buffer b);
            split; [reflexivity |]; by rewrite app_nil_r
          | exists [(comm, DeviceBufferPair.source_buffer b)],
                   (DeviceBufferPair.destination_buffer b);
            split; [reflexivity |]; done ].
Qed.

End RegistrationCalls.

Section RegistrationLoop.
Context `{NcclApi}.
Implicit Types (s : RegisteredBuffers) (d : Z) (comm : NcclCommHandle).

Lemma MaybeRegisterBuffers_summary d comm (buffers : list DeviceBufferPair) s
    status s' :
  MaybeRegisterBuffers d buffers comm s = (status, s') ->
  summary d comm buffers s status s'.
Proof.
  revert s. induction buffers as [|b rest IH]; intros s;
    cbn [MaybeRegisterBuffers].
  - intros [= <- <-]. exists [], []. rewrite !app_nil_r.
    split; [done |]. split; [done |]. split; [cbn; lia |].
    split; [intros call Hcall; by apply elem_of_nil in Hcall |].
    split; [done |]. split; [done |]. split; [intros c m [=] | done].
  - destruct (register_pair d comm b s) as [r1 s1] eqn:E1.
    pose proof (register_pair_extends _ _ _ _ _ _ E1) as [(Hkeep1 & _) _].
    apply register_pair_summary in E1
      as (c1 & h1 & Hc1 & Hh1 & Hle1 & Hin1 & Hlen1 & Hreg1 & Hfail1 & Hno1).
    destruct r1 as [[] | c m].
    + intros E2.
      pose proof (MaybeRegisterBuffers_extends _ _ _ _ _ _ E2)
        as [(Hkeep2 & _) _].
      apply IH in E2
        as (c2 & h2 & Hc2 & Hh2 & Hle2 & Hin2 & Hlen2 & Hreg2 & Hfail2 & Hno2).
      cbn [failed] in Hlen1.
      exists (c1 ++ c2), (h1 ++ h2).
      split; [by rewrite Hc2, Hc1, app_assoc |].
      split; [by rewrite Hh2, Hh1, app_assoc |].
      split.
      { destruct h1 as [|h h1].
        - cbn in Hlen1. apply length_zero_iff_nil in Hlen1 as ->. done.
        - rewrite (Hno2 (Hreg1 ltac:(done))), app_nil_r. done. }
      split.
      { intros call Hcall. apply elem_of_app in Hcall as [Hcall | Hcall].
        - destruct (Hin1 call Hcall) as [? (b' & Hb' & ?)]. split; [done |].
          exists b'. split; [| done].
          apply list_elem_of_singleton in Hb' as ->. apply list_elem_of_here.
        - destruct (Hin2 call Hcall) as [? (b' & Hb' & ?)]. split; [done |].
          exists b'. split; [| done]. by apply list_elem_of_further. }
      split; [rewrite !length_app; lia |].
      split.
      { intros Hne. destruct h2 as [|h h2]; [| by apply Hreg2].
        rewrite app_nil_r in Hne. by apply Hkeep2, Hreg1. }
      split.
      { intros c m ->. destruct (Hfail2 c m eq_refl) as (before & a & -> & Hf).
        exists (c1 ++ before), a. split; [by rewrite app_assoc |].
        by rewrite app_assoc, <- Hc1. }
      intros Hreg. rewrite (Hno1 Hreg), (Hno2 (Hkeep1 _ _ Hreg)). done.
    + intros [= <- <-]. exists c1, h1.
      split; [done |]. split; [done |]. split; [done |].
      split.
      { intros call Hcall. destruct (Hin1 call Hcall) as [? (b' & Hb' & ?)].
        split; [done |]. exists b'. split; [| done].
        apply list_elem_of_singleton in Hb' as ->. apply list_elem_of_here. }
      split; [done |].
      split.
      { intros Hne. by apply Hreg1. }
      split; [done | done].
Qed.

(** X11: the only buffers [MaybeRegisterBuffers] hands to the registration
    primitive are source or destination addresses that one of the given
    pairs places in the collective memory space, and it passes them with
    the communicator it was given.  When no pair has such an address, it
    makes no call and returns Ok. *)
Theorem MaybeRegisterBuffers_registers_collective_memory d comm
    (buffers : list DeviceBufferPair) s status s' :
  MaybeRegisterBuffers d buffers comm s = (status, s') ->
  exists new_calls,
    register_calls s' = register_calls s ++ new_calls /\
    (forall call, call ∈ new_calls ->
       call.1 = comm /\
       exists b, b ∈ buffers /\ call.2 ∈ collective_addresses b) /\
    ((forall b, b ∈ buffers -> collective_addresses b = []) ->
     new_calls = [] /\ status = OkStatus).
Proof.
  intros E. apply MaybeRegisterBuffers_summary in E
    as (c & h & Hc & _ & _ & Hin & Hlen & _ & _ & _).
  exists c. split; [done |]. split; [done |].
  intros Hnone.
  assert (c = []) as ->.
  { destruct c as [|call c]; [done |].
    destruct (Hin call ltac:(apply list_elem_of_here)) as [_ (b & Hb & Ha)].
    rewrite (Hnone b Hb) in Ha. by apply elem_of_nil in Ha. }
  split; [done |]. destruct status as [[] |]; [done |]. cbn in Hlen. lia.
Qed.

(** X12: one call of [MaybeRegisterBuffers] calls the registration
    primitive at most twice, however many buffers it is given. *)
Theorem MaybeRegisterBuffers_at_most_two_calls d comm
    (buffers : list DeviceBufferPair) s status s' :
  MaybeRegisterBuffers d buffers comm s = (status, s') ->
  exists new_calls,
    register_calls s' = register_calls s ++ new_calls /\
    length new_calls <= 2.
Proof.
  intros E. apply MaybeRegisterBuffers_summary in E
    as (c & h & Hc & _ & Hle & _).
  eauto.
Qed.

(** X13: every call of the primitive made by [MaybeRegisterBuffers]
    succeeded and left a handle, except the last one when the function
    fails: it returns a failure exactly when the last call it made failed,
    and the failure is the one that call returned. *)
Theorem MaybeRegisterBuffers_failure_is_last_call d comm
    (buffers : list DeviceBufferPair) s status s' :
  MaybeRegisterBuffers d buffers comm s = (status, s') ->
  exists new_calls new_handles,
    register_calls s' = register_calls s ++ new_calls /\
    handles s' = handles s ++ new_handles /\
    length new_calls = length new_handles + failed status /\
    forall c m, status = Failure c m ->
      exists before address,
        new_calls = before ++ [(comm, address)] /\
        RegisterBuffer (register_calls s ++ before) comm address
        = Failure c m.
Proof.
  intros E. apply MaybeRegisterBuffers_summary in E
    as (c & h & Hc & Hh & _ & _ & Hlen & _ & Hfail & _).
  eauto 10.
Qed.

End RegistrationLoop.

Lemma MaybeRegisterBuffers_registers_collective_memory_witness :
  exists new_calls,
    register_calls Fixture.after_first
    = register_calls no_registered_buffers ++ new_calls /\
    (forall call, call ∈ new_calls ->
       call.1 = 5%N /\
       exists b, b ∈ Fixture.source_collective /\
                 call.2 ∈ collective_addresses b) /\
    ((forall b, b ∈ Fixture.source_collective ->
        collective_addresses b = []) ->
     new_calls = [] /\ (OkStatus : Status) = OkStatus).
Proof.
  apply (@MaybeRegisterBuffers_registers_collective_memory Fixture.registering
           0 5%N Fixture.source_collective no_registered_buffers OkStatus
           Fixture.after_first).
  reflexivity.
Defined.

Lemma MaybeRegisterBuffers_at_most_two_calls_witness :
  exists new_calls,
    register_calls
      (@MaybeRegisterBuffers Fixture.registering 0
         (Fixture.both_collective ++ Fixture.both_collective
          ++ Fixture.source_collective) 5%N no_registered_buffers).2
    = register_calls no_registered_buffers ++ new_calls /\
    length new_calls <= 2.
Proof.
  apply (@MaybeRegisterBuffers_at_most_two_calls Fixture.registering 0 5%N
           (Fixture.both_collective ++ Fixture.both_collective
            ++ Fixture.source_collective)
           no_registered_buffers OkStatus).
  reflexivity.
Defined.

Lemma MaybeRegisterBuffers_failure_is_last_call_witness :
  exists new_calls new_handles,
    register_calls MoreFixtures.refused.2
    = register_calls no_registered_buffers ++ new_calls /\
    handles MoreFixtures.refused.2
    = handles no_registered_buffers ++ new_handles /\
    length new_calls = length new_handles + failed MoreFixtures.refused.1 /\
    forall c m, MoreFixtures.refused.1 = Failure c m ->
      exists before address,
        new_calls = before ++ [(5%N, address)] /\
        @RegisterBuffer MoreFixtures.refusing
          (register_calls no_registered_buffers ++ before) 5%N address
        = Failure c m.
Proof.
  apply (@MaybeRegisterBuffers_failure_is_last_call MoreFixtures.refusing
           0 5%N Fixture.both_collective no_registered_buffers
           MoreFixtures.refused.1 MoreFixtures.refused.2).
  reflexivity.
Defined.

Example MaybeRegisterBuffers_refused :
  MoreFixtures.refused.1 = Failure kInternal "ncclCommRegister" /\
  register_calls MoreFixtures.refused.2
  = [(5%N, {| opaque := 30; size := 32 |})] /\
  handles MoreFixtures.refused.2 = [].
Proof. repeat split; reflexivity. Qed.

(** ** The completion record, continued *)

Section Record.
Context `{EventDriver}.
Implicit Types (executor : StreamExecutor) (w : World).

Lemma Initialize_well_formed executor w status w' :
  AsyncEvents.Initialize executor w = (status, w') ->
  events_well_formed w -> events_well_formed w'.
Proof.
  intros E [Hown Hinj].
  apply Initialize_cases in E
    as [(_ & _ & ->) | (Hnone & Hn & _ & _ & [[_ Heq] | [_ Heq]])];
    [done | |]; unfold events_well_formed; rewrite Heq, Hn.
  - split; [| exact Hinj]. intros e ev Hev.
    destruct (Hown e ev Hev). split; [done | lia].
  - split.
    + intros e ev. rewrite lookup_insert.
      case_decide as Hd; [intros [= <-]; subst; cbn; split; [done | lia] |].
      intros Hev. destruct (Hown e ev Hev). split; [done | lia].
    + intros e1 e2 ev. rewrite !lookup_insert.
      repeat case_decide; subst; try done.
      * intros [= <-] Hev. apply Hown in Hev as [_ Hlt]. cbn in Hlt. lia.
      * intros Hev [= <-]. apply Hown in Hev as [_ Hlt]. cbn in Hlt. lia.
      * apply Hinj.
Qed.

Lemma calls_well_formed (cs : list AsyncEvents.Call) w rs w' :
  AsyncEvents.calls cs w = (rs, w') ->
  events_well_formed w -> events_well_formed w'.
Proof.
  revert w rs. induction cs as [|c cs IH]; intros w rs; cbn [AsyncEvents.calls].
  - by intros [= _ <-].
  - destruct (AsyncEvents.call c w) as [r w1] eqn:E1.
    destruct (AsyncEvents.calls cs w1) as [rs1 w2] eqn:E2.
    intros [= _ <-] Hwf. eapply IH; [done |].
    destruct c as [e | e]; cbn [AsyncEvents.call] in E1.
    + destruct (AsyncEvents.Initialize e w) as [st w0] eqn:E.
      injection E1 as _ <-. by eapply Initialize_well_formed.
    + destruct (AsyncEvents.GetEvent e w) as [st w0] eqn:E.
      injection E1 as _ <-. by apply GetEvent_unchanged in E as ->.
Qed.

(** X14: after any history of calls on a freshly constructed [AsyncEvents],
    the event [GetEvent] returns for an executor was constructed for that
    executor, and two different executors never get the same event. *)
Theorem GetEvent_returns_the_executors_own_event
    (cs : list AsyncEvents.Call) (rs : list AsyncEvents.Returned) w w'
    (e1 e2 : StreamExecutor) (event1 event2 : Event) :
  fresh w ->
  AsyncEvents.calls cs w = (rs, w') ->
  AsyncEvents.GetEvent e1 w' = (Value event1, w') ->
  AsyncEvents.GetEvent e2 w' = (Value event2, w') ->
  event_executor event1 = e1 /\
  event_serial event1 < events_constructed w' /\
  (event1 = event2 -> e1 = e2).
Proof.
  intros Hfresh Hcalls G1 G2.
  assert (events_well_formed w') as [Hown Hinj].
  { eapply calls_well_formed; [done |]. unfold events_well_formed.
    rewrite Hfresh. split; intros *; by rewrite lookup_empty. }
  unfold AsyncEvents.GetEvent in G1, G2.
  destruct (events_ w' !! e1) as [ev1 |] eqn:L1; [| done].
  destruct (events_ w' !! e2) as [ev2 |] eqn:L2; [| done].
  injection G1 as ->. injection G2 as ->.
  destruct (Hown _ _ L1). split; [done |]. split; [done |].
  intros ->. by eapply Hinj.
Qed.

(** X15: [Initialize] returns Ok exactly when [GetEvent] for the same
    executor succeeds right after it; a failure is an Internal error that
    leaves the map as it was, so [GetEvent] keeps failing and a later
    [Initialize] tries again.  In both cases the events of the other
    executors are those from before. *)
Theorem Initialize_then_GetEvent executor w status w' :
  AsyncEvents.Initialize executor w = (status, w') ->
  (status = OkStatus <->
   exists event, AsyncEvents.GetEvent executor w' = (Value event, w')) /\
  (forall c m, status = Failure c m ->
     c = kInternal /\ events_ w' = events_ w /\
     events_ w !! executor = None /\
     events_constructed w' = S (events_constructed w)) /\
  (forall other, other <> executor ->
     events_ w' !! other = events_ w !! other).
Proof.
  intros E. unfold AsyncEvents.GetEvent.
  apply Initialize_cases in E
    as [([ev Hev] & -> & ->)
       | (Hnone & Hn & _ & _ & [[[m ->] Heq] | [-> Heq]])].
  - rewrite Hev. split; [split; eauto |]. split; [intros c m [=] | done].
  - rewrite Heq, Hnone. split; [split; [done | intros [ev [=]]] |].
    split; [intros c m' [= <- <-]; done | done].
  - rewrite Heq, lookup_insert_eq. split; [split; eauto |].
    split; [intros c m [=] |].
    intros other Hne. by rewrite lookup_insert_ne.
Qed.

End Record.

Lemma GetEvent_returns_the_executors_own_event_witness :
  event_executor {| event_executor := 2%N; event_serial := 0 |} = 2%N /\
  event_serial {| event_executor := 2%N; event_serial := 0 |}
  < events_constructed MoreFixtures.after_two_executors.2 /\
  ({| event_executor := 2%N; event_serial := 0 |}
   = {| event_executor := 3%N; event_serial := 1 |} -> 2%N = 3%N).
Proof.
  apply (@GetEvent_returns_the_executors_own_event Fixture.events_ok
           MoreFixtures.two_executors MoreFixtures.after_two_executors.1
           Fixture.world MoreFixtures.after_two_executors.2 2%N 3%N
           {| event_executor := 2%N; event_serial := 0 |}
           {| event_executor := 3%N; event_serial := 1 |}).
  - reflexivity.
  - reflexivity.
  - reflexivity.
  - reflexivity.
Defined.

Lemma Initialize_then_GetEvent_witness :
  (MoreFixtures.failed_initialize.1 = OkStatus <->
   exists event,
     AsyncEvents.GetEvent 2%N MoreFixtures.failed_initialize.2
     = (Value event, MoreFixtures.failed_initialize.2)) /\
  (forall c m, MoreFixtures.failed_initialize.1 = Failure c m ->
     c = kInternal /\
     events_ MoreFixtures.failed_initialize.2 = events_ Fixture.world /\
     events_ Fixture.world !! 2%N = None /\
     events_constructed MoreFixtures.failed_initialize.2
     = S (events_constructed Fixture.world)) /\
  (forall other, other <> 2%N ->
     events_ MoreFixtures.failed_initialize.2 !! other
     = events_ Fixture.world !! other).
Proof.
  apply (@Initialize_then_GetEvent MoreFixtures.events_fail 2%N Fixture.world
           MoreFixtures.failed_initialize.1 MoreFixtures.failed_initialize.2).
  reflexivity.
Defined.

(** ** Operand validation and degeneracy, continued *)

Section OperandKinds.
Context `{ThunkKinds} `{Shapes}.

(** X18: an operand that is valid for a reduction collective is valid for
    every kind of collective, and an operand that is rejected for a kind
    that is not a reduction is rejected for every kind. *)
Theorem IsValidOperand_reduction_is_strictest (shape : Shape)
    (reduction_op other : Kind) :
  (IsReductionCollective reduction_op = true ->
   IsValidOperand shape reduction_op = OkStatus ->
   IsValidOperand shape other = OkStatus) /\
  (IsReductionCollective other = false ->
   IsValidOperand shape other <> OkStatus ->
   IsValidOperand shape reduction_op <> OkStatus).
Proof.
  assert (forall k k', IsReductionCollective k = true \/
                       IsReductionCollective k' = false ->
            IsValidOperand shape k = OkStatus ->
            IsValidOperand shape k' = OkStatus) as Hmono.
  { intros k k' Hk. rewrite !IsValidOperand_ok_iff. intros [Hd Hs].
    split; [done |]. revert Hs. unfold IsTypeSupportedByNccl.
    destruct (element_type shape); try done;
      destruct Hk as [-> | ->]; done. }
  split.
  - intros Hr. apply Hmono. by left.
  - intros Hn Hbad Hok. apply Hbad. revert Hok. apply Hmono. by right.
Qed.

End OperandKinds.

(** The configuration with another group mode. *)
Definition with_group_mode (mode : CollectiveOpGroupMode)
    (cfg : NcclCollectiveConfig) : NcclCollectiveConfig :=
  {| operand_count := operand_count cfg;
     operand_element_type := operand_element_type cfg;
     replica_groups := replica_groups cfg;
     collective_op_kind := collective_op_kind cfg; op_id := op_id cfg;
     group_mode := mode |}.

(** X19: a collective that is degenerate across replicas and partitions is
    degenerate across replicas alone and across partitions alone, for the
    same groups and counts; and once a group is listed, the answer of
    [IsDegenerate] does not depend on the replica count, in any mode. *)
Theorem IsDegenerate_across_modes (cfg : NcclCollectiveConfig)
    (replica_count partition_count : Z) :
  (NcclCollectiveConfig.IsDegenerate
     (with_group_mode kCrossReplicaAndPartition cfg)
     replica_count partition_count = Returned true ->
   NcclCollectiveConfig.IsDegenerate (with_group_mode kCrossReplica cfg)
     replica_count partition_count = Returned true /\
   NcclCollectiveConfig.IsDegenerate (with_group_mode kCrossPartition cfg)
     replica_count partition_count = Returned true) /\
  (replica_groups cfg <> [] ->
   forall replica_count',
     NcclCollectiveConfig.IsDegenerate cfg replica_count' partition_count
     = NcclCollectiveConfig.IsDegenerate cfg replica_count partition_count).
Proof.
  unfold NcclCollectiveConfig.IsDegenerate.
  cbn [with_group_mode group_mode replica_groups]. cbv zeta.
  remember (NcclCollectiveConfig.empty (replica_groups cfg)) as e eqn:He.
  remember (negb e && NcclCollectiveConfig.c_all_of (replica_groups cfg) _)
    as sing eqn:Hsing.
  clear Hsing. split.
  - intros [= Hd]. revert Hd.
    destruct sing, e, (replica_count =? 1)%Z, (partition_count =? 1)%Z;
      cbn; done.
  - intros Hne rc'.
    assert (e = false) as -> by (subst e; by destruct (replica_groups cfg)).
    destruct (group_mode cfg); cbn [andb negb];
      by rewrite ?andb_false_l, ?orb_false_r.
Qed.

(** ** From buffer bindings to registration *)

Section ConvertThenRegister.
Context `{NcclApi} {Slice : Type} (allocations : BufferAllocations Slice).

Lemma ConvertToDeviceBuffers_elements (buffers : list (Buffer Slice))
    (element_types : list PrimitiveType)
    (device_buffers : list DeviceBufferPair) (p : DeviceBufferPair) :
  ConvertToDeviceBuffers allocations buffers element_types
  = Some (Value device_buffers) ->
  p ∈ device_buffers ->
  exists b et,
    b ∈ buffers /\
    p = DeviceBufferPair.mk et (element_count b)
          (GetDeviceAddress allocations (source_buffer b))
          (GetDeviceAddress allocations (destination_buffer b))
          (source_memory_space b) (destination_memory_space b).
Proof.
  unfold ConvertToDeviceBuffers.
  destruct (Nat.eqb_spec (length buffers) (length element_types))
    as [Hlen | Hne]; cbn [negb]; [| done].
  destruct (convert_loop_spec allocations buffers element_types
              (length buffers) 0 []) as (l & -> & Hn & Hnth); [lia | done |].
  cbn. intros [= <-] Hp.
  apply list_elem_of_lookup in Hp as [j Hj].
  pose proof (lookup_lt_Some _ _ _ Hj) as Hlt. rewrite Hn in Hlt.
  destruct (lookup_lt_is_Some_2 buffers j) as [b Hb]; [lia |].
  destruct (lookup_lt_is_Some_2 element_types j) as [et Het]; [lia |].
  rewrite (Hnth j b et Hb Het) in Hj. injection Hj as <-.
  exists b, et. split; [by eapply list_elem_of_lookup_2 | done].
Qed.

(** X20: when the bindings of a thunk are converted by
    [ConvertToDeviceBuffers] and the result is passed to
    [MaybeRegisterBuffers], every address given to the registration
    primitive is the device address the allocations resolve for the source
    or the destination slice of one of the bindings, and that side of the
    binding is tagged with the collective memory space. *)
Theorem registered_addresses_come_from_bindings
    (buffers : list (Buffer Slice)) (element_types : list PrimitiveType)
    (device_buffers : list DeviceBufferPair) (d : Z) (comm : NcclCommHandle)
    (s s' : RegisteredBuffers) (status : Status) :
  ConvertToDeviceBuffers allocations buffers element_types
  = Some (Value device_buffers) ->
  MaybeRegisterBuffers d device_buffers comm s = (status, s') ->
  exists new_calls,
    register_calls s' = register_calls s ++ new_calls /\
    forall call, call ∈ new_calls ->
      call.1 = comm /\
      exists b, b ∈ buffers /\
        ((call.2 = GetDeviceAddress allocations (source_buffer b) /\
          source_memory_space b = kCollectiveMemorySpaceColor) \/
         (call.2 = GetDeviceAddress allocations (destination_buffer b) /\
          destination_memory_space b = kCollectiveMemorySpaceColor)).
Proof.
  intros Hconv Hreg.
  apply MaybeRegisterBuffers_summary in Hreg
    as (c & h & Hc & _ & _ & Hin & _).
  exists c. split; [done |]. intros call Hcall.
  destruct (Hin call Hcall) as [Hcomm (p & Hp & Haddr)]. split; [done |].
  destruct (ConvertToDeviceBuffers_elements _ _ _ _ Hconv Hp)
    as (b & et & Hb & ->).
  exists b. split; [done |].
  unfold collective_addresses in Haddr. cbn in Haddr.
  apply elem_of_app in Haddr as [Haddr | Haddr].
  - left. destruct (Z.eqb_spec (source_memory_space b)
                      kCollectiveMemorySpaceColor) as [Heq | Hne];
      [| by apply elem_of_nil in Haddr].
    apply list_elem_of_singleton in Haddr. done.
  - right. destruct (Z.eqb_spec (destination_memory_space b)
                       kCollectiveMemorySpaceColor) as [Heq | Hne];
      [| by apply elem_of_nil in Haddr].
    apply list_elem_of_singleton in Haddr. done.
Qed.

End ConvertThenRegister.

(** ** Histories of executions, continued *)

Section OneBlockingSuccess.
Context `{CollectiveRuntime}.
Implicit Types (thunk : NcclCollectiveThunk) (w : World).
Implicit Types (invocations : list (ExecuteParams * DeviceReport)).
Implicit Types (history : list NcclCollectiveThunk.Execution).

(** X21: in any sequence of executions of one instance, whatever its
    flag at the start, at most one execution both returns Ok and
    synchronises the host. *)
Theorem at_most_one_completed_execution_blocks thunk invocations w history
    (i j : nat) (ei ej : NcclCollectiveThunk.Execution) :
  NcclCollectiveThunk.executions thunk invocations w = Some history ->
  history !! i = Some ei -> history !! j = Some ej ->
  NcclCollectiveThunk.returned ei = OkStatus ->
  NcclCollectiveThunk.returned ej = OkStatus ->
  NcclCollectiveThunk.blocks_host ei ->
  NcclCollectiveThunk.blocks_host ej ->
  i = j.
Proof.
  revert thunk w history i j.
  induction invocations as [|[params device] rest IH];
    intros thunk w history i j; cbn [NcclCollectiveThunk.executions].
  - intros [= <-] Hi. by rewrite lookup_nil in Hi.
  - destruct (NcclCollectiveThunk.ExecuteOnStream thunk params device w)
      as [[[status thunk'] w'] |] eqn:E; [| done].
    destruct (ExecuteOnStream_step _ _ _ _ _ _ _ E)
      as (ops & Hlog & _ & _ & Hdown & Hup).
    destruct (NcclCollectiveThunk.executions thunk' rest w')
      as [later |] eqn:El; [| done].
    cbn. intros [= <-] Hi Hj Oi Oj Bi Bj.
    assert (forall k e, (NcclCollectiveThunk.returned e = OkStatus) ->
              NcclCollectiveThunk.blocks_host e ->
              ({| NcclCollectiveThunk.returned := status;
                  NcclCollectiveThunk.issued :=
                    drop (length (stream_log w)) (stream_log w') |}
               :: later) !! 0 = Some e ->
              later !! k = Some ej \/ later !! k = Some ei ->
              forall e', later !! k = Some e' ->
                NcclCollectiveThunk.blocks_host e' -> False) as Hhead.
    { intros k e Oe Be [= <-] _ e' He' Be'. cbn in Oe, Be. subst status.
      destruct Be as [s Hs]. cbn in Hs. rewrite (issued_ops _ _ _ Hlog) in Hs.
      destruct (first_call_to_execute_ thunk) eqn:Hflag.
      - destruct (proj1 (Hup eq_refl) eq_refl) as [Hd _].
        by eapply (executions_flag_down thunk' rest w' later Hd El k e').
      - destruct (Hdown eq_refl) as [_ Hnone]. by apply (Hnone s). }
    destruct i as [|i], j as [|j]; [done | | |].
    + exfalso. cbn in Hj. by eapply (Hhead j ei Oi Bi Hi (or_introl Hj) ej).
    + exfalso. cbn in Hi. by eapply (Hhead i ej Oj Bj Hj (or_intror Hi) ei).
    + f_equal. cbn in Hi, Hj. by eapply (IH thunk' w' later i j El).
Qed.

End OneBlockingSuccess.

Section DeviceAbsent.
Context `{CollectiveRuntime}.

(** X22: when the resolved participants do not contain the calling device
    and the partial-groups check lets the call through, [LockNcclComm]
    returns the Internal error of its membership check, without looking up
    the clique id callback and without asking anything of the registry. *)
Theorem LockNcclComm_device_not_participating
    (params : CollectiveExecuteParams) (groups : list ReplicaGroup)
    (mode : CollectiveOpGroupMode) (op_id stream_id : Z) (optimize : bool)
    (log : list CommRequest) (participants : list GlobalDeviceId) :
  GetParticipatingDevices (global_device_id params) (device_assn params)
    groups mode = Value participants ->
  IsGlobalNcclConfig && size_differs participants (device_assn params)
  = false ->
  global_device_id params ∉ participants ->
  exists m,
    LockNcclComm params groups mode op_id stream_id optimize log
    = (Failure kInternal m, log).
Proof.
  intros E Hpass Hout. unfold LockNcclComm. rewrite E, Hpass. cbv zeta.
  destruct (c_find participants (global_device_id params) <? _)%nat eqn:Hf;
    [| cbn [negb]; eauto].
  apply c_find_found in Hf. done.
Qed.

End DeviceAbsent.

Lemma registered_addresses_come_from_bindings_witness :
  exists new_calls,
    register_calls MoreFixtures.registered_converted.2
    = register_calls no_registered_buffers ++ new_calls /\
    forall call, call ∈ new_calls ->
      call.1 = 5%N /\
      exists b, b ∈ MoreFixtures.bindings /\
        ((call.2 = GetDeviceAddress Fixture.allocations (source_buffer b) /\
          source_memory_space b = kCollectiveMemorySpaceColor) \/
         (call.2 = GetDeviceAddress Fixture.allocations (destination_buffer b)
          /\ destination_memory_space b = kCollectiveMemorySpaceColor)).
Proof.
  apply (@registered_addresses_come_from_bindings Fixture.registering N
           Fixture.allocations MoreFixtures.bindings [F32; S16]
           MoreFixtures.converted 0 5%N no_registered_buffers
           MoreFixtures.registered_converted.2
           MoreFixtures.registered_converted.1).
  - reflexivity.
  - reflexivity.
Defined.

Example registration_of_converted_bindings :
  register_calls MoreFixtures.registered_converted.2
  = [(5%N, {| opaque := 10; size := 4 |})].
Proof. reflexivity. Qed.

Lemma at_most_one_completed_execution_blocks_witness : 1 = 1.
Proof.
  apply (@at_most_one_completed_execution_blocks (Fixture.runtime false)
           Fixture.async_thunk Fixture.three_invocations Fixture.initialized_2
           Fixture.three_executions 1 1 Fixture.second_execution
           Fixture.second_execution).
  - reflexivity.
  - reflexivity.
  - reflexivity.
  - reflexivity.
  - reflexivity.
  - exists Fixture.async_stream. cbn. in_list.
  - exists Fixture.async_stream. cbn. in_list.
Defined.

Lemma LockNcclComm_device_not_participating_witness :
  exists m,
    @LockNcclComm (Fixture.runtime false) (Fixture.params false 3 9%Z)
      [[0; 1; 2]]%Z kCrossReplica 5 0 false []
    = (Failure kInternal m, []).
Proof.
  apply (@LockNcclComm_device_not_participating (Fixture.runtime false)
           (Fixture.params false 3 9%Z) [[0; 1; 2]]%Z kCrossReplica 5 0 false
           [] [0; 1; 2]%Z eq_refl eq_refl).
  cbn. intros Hin.
  repeat (apply elem_of_cons in Hin as [Hin | Hin]; [discriminate Hin |]).
  by apply elem_of_nil in Hin.
Defined.
